(** * The client feature controller: query normalisation, validator (ETag)
      computation, the conditional response gate and the memoised resolver.

    The embedding follows the controller class of the client API
    ([FeatureController]): its methods [resolveFeaturesAndSegments],
    [resolveQuery], [paramToArray], [prepQuery], [getAll], [calculateMeta]
    and [getFeatureToggle], and the constructor that wires the
    [featuresAndSegments] field either to the memoised resolver or to the
    direct one.

    Asynchronous code is modelled by explicit state passing: a handler is a
    function from a controller state to an outcome (returned value or thrown
    error) and a new state.  A promise is a value that already records how it
    will settle; awaiting it performs the settlement bookkeeping and either
    continues with its value or throws its rejection reason. *)

From Stdlib Require Import ZArith String Ascii DecimalString DecimalZ DecimalPos.
From stdpp Require Import gmap strings list.

Open Scope string_scope.
Open Scope Z_scope.
Open Scope list_scope.

(* ================================================================== *)
(** * 1. JavaScript values used by the controller                      *)
(* ================================================================== *)

(** The double-quote character that opens and closes the validator. *)
Definition dquote : string := String "034"%char EmptyString.

(** The separator between fingerprint and revision in the validator, and
    between type and value in a tag filter. *)
Definition colon : ascii := ":"%char.

(** [String(n)] for an integer [n], as a template literal renders it:
    decimal digits, a leading minus sign for negatives, "0" for zero.
    (JavaScript switches to exponent notation from 1e21 on; revision ids are
    database sequence numbers far below that.) *)
Definition Number_toString (n : Z) : string :=
  NilZero.string_of_int (Z.to_int n).

(** [s.split(':')]: the pieces between separators; the empty string
    splits into one empty piece. *)
Fixpoint split (sep : ascii) (s : string) : list string :=
  match s with
  | EmptyString => [EmptyString]
  | String c rest =>
      if Ascii.eqb c sep then EmptyString :: split sep rest
      else match split sep rest with
           | [] => [String c EmptyString]
           | w :: ws => String c w :: ws
           end
  end.

(** Does the character [c] occur in [s]? *)
Fixpoint occurs (c : ascii) (s : string) : bool :=
  match s with
  | EmptyString => false
  | String d rest => Ascii.eqb d c || occurs c rest
  end.

(** Errors a handler can throw. *)
Inductive Error :=
| ValidationError            (* querySchema.validateAsync rejected *)
| NotFoundError (msg : string)
| UpstreamError (reason : string). (* a store or the revision service failed *)

(** How a promise settles. *)
Inductive Settled (A : Type) :=
| Fulfilled (a : A)
| Rejected (e : Error).
Arguments Fulfilled {A} a.
Arguments Rejected {A} e.

(** [Promise.all([a, b])]: fulfilled with the pair when both are; rejected
    with the reason of whichever input rejects first.  [bFirst] tells whether
    the second input settles before the first one. *)
Definition Promise_all {A B} (a : Settled A) (b : Settled B) (bFirst : bool)
  : Settled (A * B) :=
  match a, b with
  | Fulfilled x, Fulfilled y => Fulfilled (x, y)
  | Rejected e, Fulfilled _ => Rejected e
  | Fulfilled _, Rejected e => Rejected e
  | Rejected ea, Rejected eb => Rejected (if bFirst then eb else ea)
  end.

(** A value under one key of the parsed query string: missing, a single
    string, or a list of strings (a repeated key).  Nested objects, which the
    query-string parser can also produce, are not modelled. *)
Inductive QueryParam :=
| PUndefined
| PString (s : string)
| PArray (l : list string).

(** JavaScript truthiness, as [!param] tests it: [undefined] and the empty
    string are falsy, every array (also the empty one) is truthy. *)
Definition truthy (p : QueryParam) : bool :=
  match p with
  | PUndefined => false
  | PString s => negb (String.eqb s EmptyString)
  | PArray _ => true
  end.

(* ================================================================== *)
(** * 2. Data model                                                    *)
(* ================================================================== *)

(** [IFeatureToggleQuery], the canonical query descriptor.  A field that is
    missing or holds [undefined] is [None]; [{}] is [emptyQuery]. *)
Record IFeatureToggleQuery := mkQuery {
  tag : option (list (list string));
  project : option (list string);
  namePrefix : option string;
  environment : option string;
  inlineSegmentConstraints : option bool
}.

Definition emptyQuery : IFeatureToggleQuery :=
  mkQuery None None None None None.

(** [{ ...q, namePrefix: name }]. *)
Definition withNamePrefix (q : IFeatureToggleQuery) (name : string)
  : IFeatureToggleQuery :=
  mkQuery (tag q) (project q) (Some name) (environment q)
          (inlineSegmentConstraints q).

(** The object [prepQuery] destructures: the four optional filters as the
    query-string parser (or the override) delivers them, and the computed
    [inlineSegmentConstraints] flag. *)
Record RawQuery := mkRaw {
  raw_tag : QueryParam;
  raw_project : QueryParam;
  raw_namePrefix : QueryParam;
  raw_environment : QueryParam;
  raw_inlineSegmentConstraints : option bool
}.

(** [interface QueryOverride]. *)
Record QueryOverride := mkOverride {
  override_project : option (list string);
  override_environment : option string
}.

(** [interface IMeta]. *)
Record IMeta := mkMeta {
  revisionId : Z;
  etag : string;
  queryHash : string
}.

(** [req.user]: an instance of [ApiUser] with its project list and its
    environment, or anything else (a session user, or no user). *)
Inductive User :=
| ApiUser (projects : list string) (user_environment : string)
| OtherUser.

(** [IAuthRequest]: the parts of the request the controller reads.
    Header names are lower-cased by the HTTP layer.  Whatever the client
    sends as [inlineSegmentConstraints] is overwritten by [resolveQuery]. *)
Record IAuthRequest := mkRequest {
  user : User;
  query : RawQuery;
  headers : gmap string string;
  params_featureName : string
}.

(** The express response object: status code (200 until set), headers,
    the body sent (if any) and whether the response was ended. *)
Record Response (T : Type) := mkResponse {
  statusCode : Z;
  resHeaders : gmap string string;
  body : option T;
  finished : bool
}.
Arguments mkResponse {T} _ _ _ _.
Arguments statusCode {T} _.
Arguments resHeaders {T} _.
Arguments body {T} _.
Arguments finished {T} _.

Definition freshResponse {T} : Response T := mkResponse 200 ∅ None false.

(** [res.setHeader(k, v)]. *)
Definition setHeader {T} (k v : string) (r : Response T) : Response T :=
  mkResponse (statusCode r) (<[k := v]> (resHeaders r)) (body r) (finished r).

(** [res.status(n)]. *)
Definition status {T} (n : Z) (r : Response T) : Response T :=
  mkResponse n (resHeaders r) (body r) (finished r).

(** [res.end()]: the response is sent without a body. *)
Definition endResponse {T} (r : Response T) : Response T :=
  mkResponse (statusCode r) (resHeaders r) (body r) true.

(** Modelled from the spec: [openApiService.respondWithValidation] (the
    OpenAPI service is not among the sources).  The response gets the given
    status and the given payload as its body, and is sent. *)
Definition respondWithValidation {T} (n : Z) (r : Response T) (data : T)
  : Response T :=
  mkResponse n (resHeaders r) (Some data) true.

(** Modelled from the spec: [querySchema] (schema/feature-schema is not among
    the sources).  Validation never corrects a value: it accepts the object
    as given or rejects it.  The schema follows the declared shape of
    [IFeatureToggleQuery] (tag and project are lists of strings, namePrefix
    and environment are strings); which strings are well-formed is left to
    the four predicates. *)
Record Schema := mkSchema {
  tagSyntax : string -> bool;
  projectSyntax : string -> bool;
  namePrefixSyntax : string -> bool;
  environmentSyntax : string -> bool
}.

(** The module-level imports of the controller that are not among the
    sources: the [hash-sum] package, the [ALL] constant and [isAllProjects]
    of the API-token model, and [querySchema]. *)
Class Imports := {
  hashSum : IFeatureToggleQuery -> string;
  ALL : string;
  isAllProjects : list string -> bool;
  querySchema : Schema
}.

(** A promise: its identity and how it settles. *)
Record Promise (V : Type) := mkPromise {
  pid : nat;
  outcome : Settled V
}.
Arguments mkPromise {V} _ _.
Arguments pid {V} _.
Arguments outcome {V} _.

(** How a handler ends. *)
Inductive Outcome (A : Type) :=
| Returned (a : A)
| Thrown (e : Error).
Arguments Returned {A} a.
Arguments Thrown {A} e.

Section Model.
(** What the controller never inspects: the remaining fields of a client
    feature, and segments. *)
Context {FeatureRest ISegment : Type}.

(** [FeatureConfigurationClient]: the controller reads only [name]. *)
Record FeatureConfigurationClient := mkFeature {
  name : string;
  rest : FeatureRest
}.

(** What [resolveFeaturesAndSegments] resolves to. *)
Definition Resolution : Type :=
  list FeatureConfigurationClient * list ISegment.

(** [ClientFeaturesSchema], the payload of the list endpoint. *)
Record ClientFeaturesSchema := mkPayload {
  payload_version : Z;
  features : list FeatureConfigurationClient;
  payload_query : IFeatureToggleQuery;
  segments : option (list ISegment);
  meta : IMeta
}.

(** What the collaborators answer when they are called during the run that
    is modelled: the feature store, the segment store (and whether its
    answer arrives before the feature store's), the revision service and the
    client-spec service. *)
Record IUnleashServices := mkServices {
  getClientFeatures : IFeatureToggleQuery -> Settled (list FeatureConfigurationClient);
  getActive : Settled (list ISegment);
  getActiveSettlesFirst : bool;
  getMaxRevisionId : Settled Z;
  requestSupportsSpec : IAuthRequest -> string -> bool
}.

(** [config.clientFeatureCaching]. *)
Record ClientFeatureCaching := mkCaching {
  enabled : bool;
  maxAge : Z
}.

(** Calls that leave the controller, in the order they are issued. *)
Inductive Event :=
| EvGetMaxRevisionId
| EvGetClientFeatures (q : IFeatureToggleQuery)
| EvGetActive
| EvFeaturesAndSegments (q : IFeatureToggleQuery) (key : string).

(** An entry of the memoisation cache: the promise stored at the call that
    missed, the time-to-live it was stored with, and the time its expiry
    timer was armed ([None] while the promise has not settled). *)
Record CacheEntry := mkEntry {
  promise : Promise Resolution;
  ttl : Z;
  armedAt : option Z
}.

(** The state a handler runs in: the response being built, the cache of the
    memoised resolver, the next promise identity, the clock, and the calls
    issued so far (latest last). *)
Record St (T : Type) := mkSt {
  res : Response T;
  cache : gmap string CacheEntry;
  nextPromise : nat;
  clock : Z;
  trace : list Event
}.
Arguments mkSt {T} _ _ _ _ _.
Arguments res {T} _.
Arguments cache {T} _.
Arguments nextPromise {T} _.
Arguments clock {T} _.
Arguments trace {T} _.

(** ** The handler monad: state passing with exceptions. *)

Definition M (T A : Type) : Type := St T -> Outcome A * St T.

Definition ret {T A} (a : A) : M T A := fun s => (Returned a, s).

Definition throw {T A} (e : Error) : M T A := fun s => (Thrown e, s).

Definition bind {T A B} (m : M T A) (k : A -> M T B) : M T B :=
  fun s => match m s with
           | (Returned a, s') => k a s'
           | (Thrown e, s') => (Thrown e, s')
           end.

End Model.

Arguments mkSt {FeatureRest ISegment T} _ _ _ _ _.
Arguments res {FeatureRest ISegment T} _.
Arguments cache {FeatureRest ISegment T} _.
Arguments nextPromise {FeatureRest ISegment T} _.
Arguments clock {FeatureRest ISegment T} _.
Arguments trace {FeatureRest ISegment T} _.

Notation "x <- m ;; k" := (bind m (fun x => k))
  (at level 100, m at next level, right associativity).
Notation "m ;;; k" := (bind m (fun _ => k))
  (at level 100, right associativity).

(* ================================================================== *)
(** * 3. The controller                                                *)
(* ================================================================== *)

Section Controller.
Context `{Imports} {FeatureRest ISegment : Type}.

Local Abbreviation Feature := (@FeatureConfigurationClient FeatureRest).
Local Abbreviation Services := (@IUnleashServices FeatureRest ISegment).
Local Abbreviation Resolved := (@Resolution FeatureRest ISegment).
Local Abbreviation Entry := (@CacheEntry FeatureRest ISegment).
Local Abbreviation State := (@St FeatureRest ISegment).
Local Abbreviation Handler := (@M FeatureRest ISegment).
Local Abbreviation Payload := (@ClientFeaturesSchema FeatureRest ISegment).

(** ** State primitives *)

(** Record a call that leaves the controller. *)
Definition emit {T} (ev : Event) : Handler T unit :=
  fun s => (Returned tt,
            mkSt (res s) (cache s) (nextPromise s) (clock s) (trace s ++ [ev])).

(** Mutate the response object. *)
Definition updateResponse {T} (f : Response T -> Response T) : Handler T unit :=
  fun s => (Returned tt,
            mkSt (f (res s)) (cache s) (nextPromise s) (clock s) (trace s)).

(** [await] on a collaborator's answer: continue with the value or throw the
    rejection reason. *)
Definition await {T A} (p : Settled A) : Handler T A :=
  match p with
  | Fulfilled a => ret a
  | Rejected e => throw e
  end.

(** Create a promise that will settle as [o]. *)
Definition newPromise {T} (o : Settled Resolved) : Handler T (Promise Resolved) :=
  fun s => (Returned (mkPromise (nextPromise s) o),
            mkSt (res s) (cache s) (S (nextPromise s)) (clock s) (trace s)).

(** ** The memoisation utility *)

(** Modelled from the spec: the memoisation utility wrapped around the
    resolver (the [memoizee] package, not among the sources), in the mode the
    constructor selects: [promise: true], [maxAge], and a [normalizer] that
    computes the cache key from the arguments.  A call whose key has an entry
    returns the stored promise without running the function; a call that
    misses runs the function and stores the promise it returns at once, so
    that calls arriving before it settles share it.  When a stored promise is
    fulfilled the entry's expiry timer is armed; when it is rejected the
    entry is deleted; when the timer fires ([maxAge] after it was armed) the
    entry is deleted. *)
Definition memoizee {T}
    (fn : IFeatureToggleQuery -> string -> Handler T (Promise Resolved))
    (ttl : Z)
    (normalizer : IFeatureToggleQuery -> string -> string)
  : IFeatureToggleQuery -> string -> Handler T (Promise Resolved) :=
  fun q key s =>
    let id := normalizer q key in
    match cache s !! id with
    | Some e => (Returned (promise e), s)
    | None =>
        match fn q key s with
        | (Returned p, s') =>
            (Returned p,
             mkSt (res s') (<[id := mkEntry p ttl None]> (cache s'))
                  (nextPromise s') (clock s') (trace s'))
        | (Thrown e, s') => (Thrown e, s')
        end
    end.

(** Modelled from the spec: the memoisation utility's reaction to the
    settling of promise [p] at time [now], for one cache entry: the timer of
    an entry holding [p] is armed when [p] is fulfilled, and the entry is
    dropped when [p] is rejected. *)
Definition settleEntry (p : Promise Resolved) (now : Z) (e : Entry)
  : option Entry :=
  if Nat.eqb (pid (promise e)) (pid p) then
    match armedAt e, outcome (promise e) with
    | None, Fulfilled _ => Some (mkEntry (promise e) (ttl e) (Some now))
    | None, Rejected _ => None
    | Some _, _ => Some e
    end
  else Some e.

(** Promise [p] settles: every entry of the cache reacts. *)
Definition settle {T} (p : Promise Resolved) : Handler T unit :=
  fun s => (Returned tt,
            mkSt (res s) (omap (settleEntry p (clock s)) (cache s))
                 (nextPromise s) (clock s) (trace s)).

(** [await p] for a promise handed out by the resolver: the caller resumes
    after [p] has settled. *)
Definition awaitPromise {T} (p : Promise Resolved) : Handler T Resolved :=
  settle p ;;; await (outcome p).

(** Modelled from the spec: the expiry of a cache entry.  Has the timer of
    [e] fired by time [now]? *)
Definition expired (now : Z) (e : Entry) : bool :=
  match armedAt e with
  | Some t => t + ttl e <=? now
  | None => false
  end.

(** [dt] milliseconds pass; the timers due by then fire. *)
Definition elapse {T} (dt : Z) : Handler T unit :=
  fun s =>
    let now := clock s + dt in
    (Returned tt,
     mkSt (res s)
          (omap (fun e => if expired now e then None else Some e) (cache s))
          (nextPromise s) now (trace s)).

(** ** Methods of the controller *)

(** [resolveFeaturesAndSegments]: both store calls are started, then
    [Promise.all] combines them. *)
Definition resolveFeaturesAndSegments {T} (svc : Services)
    (q : IFeatureToggleQuery) : Handler T (Promise Resolved) :=
  emit (EvGetClientFeatures q) ;;;
  emit EvGetActive ;;;
  newPromise (Promise_all (getClientFeatures svc q) (getActive svc)
                          (getActiveSettlesFirst svc)).

(** The [featuresAndSegments] field as the constructor sets it: the memoised
    resolver, keyed on its second argument, when caching is enabled; the
    resolver itself otherwise. *)
Definition featuresAndSegments {T} (config : ClientFeatureCaching)
    (svc : Services) (q : IFeatureToggleQuery) (key : string)
  : Handler T (Promise Resolved) :=
  emit (EvFeaturesAndSegments q key) ;;;
  if enabled config then
    memoizee (fun q' _ => resolveFeaturesAndSegments svc q')
             (maxAge config)
             (fun _ arg1 => arg1)
             q key
  else resolveFeaturesAndSegments svc q.

(** [{ ...query, ...override, inlineSegmentConstraints }]. *)
Definition spread (q : RawQuery) (o : QueryOverride) (inline : bool)
  : RawQuery :=
  mkRaw (raw_tag q)
        (match override_project o with
         | Some l => PArray l
         | None => raw_project q
         end)
        (raw_namePrefix q)
        (match override_environment o with
         | Some e => PString e
         | None => raw_environment q
         end)
        (Some inline).

(** [paramToArray]. *)
Definition paramToArray (param : QueryParam) : QueryParam :=
  if negb (truthy param) then param
  else match param with
       | PArray l => PArray l
       | PString s => PArray [s]
       | PUndefined => PUndefined
       end.

(** What validation returns: the object it was given, with the shape the
    schema checked. *)
Record ValidatedQuery := mkValidated {
  v_tag : option (list string);
  v_project : option (list string);
  v_namePrefix : option string;
  v_environment : option string;
  v_inlineSegmentConstraints : option bool
}.

(** A list-valued field: missing, or a list of well-formed strings. *)
Definition validateArray (ok : string -> bool) (p : QueryParam)
  : option (option (list string)) :=
  match p with
  | PUndefined => Some None
  | PArray l => if forallb ok l then Some (Some l) else None
  | PString _ => None
  end.

(** A string-valued field: missing, or one well-formed string. *)
Definition validateString (ok : string -> bool) (p : QueryParam)
  : option (option string) :=
  match p with
  | PUndefined => Some None
  | PString s => if ok s then Some (Some s) else None
  | PArray _ => None
  end.

(** Modelled from the spec: [querySchema.validateAsync] (the schema is not
    among the sources).  The promise is fulfilled with the object as given
    when every field is well-formed, and rejected with a validation error
    otherwise. *)
Definition validateAsync (r : RawQuery) : Settled ValidatedQuery :=
  match validateArray (tagSyntax querySchema) (raw_tag r),
        validateArray (projectSyntax querySchema) (raw_project r),
        validateString (namePrefixSyntax querySchema) (raw_namePrefix r),
        validateString (environmentSyntax querySchema) (raw_environment r)
  with
  | Some t, Some p, Some n, Some e =>
      Fulfilled (mkValidated t p n e (raw_inlineSegmentConstraints r))
  | _, _, _, _ => Rejected ValidationError
  end.

(** [!inlineSegmentConstraints]. *)
Definition notFlag (b : option bool) : bool :=
  match b with
  | Some true => false
  | _ => true
  end.

(** [prepQuery]. *)
Definition prepQuery (r : RawQuery) : Settled IFeatureToggleQuery :=
  if negb (truthy (raw_tag r)) && negb (truthy (raw_project r))
     && negb (truthy (raw_namePrefix r)) && negb (truthy (raw_environment r))
     && notFlag (raw_inlineSegmentConstraints r)
  then Fulfilled emptyQuery
  else
    let tagQuery := paramToArray (raw_tag r) in
    let projectQuery := paramToArray (raw_project r) in
    match validateAsync (mkRaw tagQuery projectQuery (raw_namePrefix r)
                               (raw_environment r)
                               (raw_inlineSegmentConstraints r)) with
    | Rejected e => Rejected e
    | Fulfilled v =>
        Fulfilled (mkQuery (option_map (map (split colon)) (v_tag v))
                           (v_project v) (v_namePrefix v) (v_environment v)
                           (v_inlineSegmentConstraints v))
    end.

(** The override [resolveQuery] derives from the caller's identity. *)
Definition overrideOf (u : User) : QueryOverride :=
  match u with
  | ApiUser projects env =>
      mkOverride (if negb (isAllProjects projects) then Some projects else None)
                 (if negb (String.eqb env ALL) then Some env else None)
  | OtherUser => mkOverride None None
  end.

(** [resolveQuery]. *)
Definition resolveQuery (svc : Services) (req : IAuthRequest)
  : Settled IFeatureToggleQuery :=
  let override := overrideOf (user req) in
  let inline := negb (requestSupportsSpec svc req "segments") in
  prepQuery (spread (query req) override inline).

(** The validator built by the template literal of [calculateMeta]. *)
Definition etagOf (hash : string) (revision : Z) : string :=
  dquote +:+ hash +:+ ":" +:+ Number_toString revision +:+ dquote.

(** [calculateMeta]. *)
Definition calculateMeta {T} (svc : Services) (q : IFeatureToggleQuery)
  : Handler T IMeta :=
  emit EvGetMaxRevisionId ;;;
  revision <- await (getMaxRevisionId svc) ;;
  let hash := hashSum q in
  ret (mkMeta revision (etagOf hash revision) hash).

(** [const version = 2]. *)
Definition version : Z := 2.

(** [getAll], the list endpoint. *)
Definition getAll (config : ClientFeatureCaching) (svc : Services)
    (req : IAuthRequest) : Handler Payload unit :=
  q <- await (resolveQuery svc req) ;;
  let userVersion := headers req !! "if-none-match" in
  m <- calculateMeta svc q ;;
  updateResponse (setHeader "ETag" (etag m)) ;;;
  if decide (Some (etag m) = userVersion) then
    updateResponse (status 304) ;;;
    updateResponse endResponse
  else
    p <- featuresAndSegments config svc q (etag m) ;;
    fs <- awaitPromise p ;;
    if requestSupportsSpec svc req "segments" then
      updateResponse (fun r =>
        respondWithValidation 200 r
          (mkPayload version (fst fs) q (Some (snd fs)) m))
    else
      updateResponse (fun r =>
        respondWithValidation 200 r (mkPayload version (fst fs) q None m)).

(** [getFeatureToggle], the single-feature endpoint. *)
Definition getFeatureToggle (svc : Services) (req : IAuthRequest)
  : Handler Feature unit :=
  let featureName := params_featureName req in
  featureQuery <- await (resolveQuery svc req) ;;
  let q := withNamePrefix featureQuery featureName in
  emit (EvGetClientFeatures q) ;;;
  toggles <- await (getClientFeatures svc q) ;;
  match List.find (fun t => String.eqb (name t) featureName) toggles with
  | None =>
      throw (NotFoundError ("Could not find feature toggle " +:+ featureName))
  | Some toggle =>
      updateResponse (fun r => respondWithValidation 200 r toggle)
  end.

(** ** Runs of several resolver calls *)

(** The resolver call of the list endpoint: the validator of the request is
    computed from the query and the current revision, and the resolver is
    called with the query and that validator. *)
Definition resolverCall {T} (config : ClientFeatureCaching) (svc : Services)
    (q : IFeatureToggleQuery) : Handler T (Promise Resolved) :=
  m <- calculateMeta svc q ;;
  featuresAndSegments config svc q (etag m).

(** Two resolver calls one after the other: the first is awaited, [dt]
    milliseconds pass, the second is made. *)
Definition twoCalls {T} (config : ClientFeatureCaching)
    (svc1 : Services) (q1 : IFeatureToggleQuery) (dt : Z)
    (svc2 : Services) (q2 : IFeatureToggleQuery)
  : Handler T (Promise Resolved * Promise Resolved) :=
  p1 <- resolverCall config svc1 q1 ;;
  awaitPromise p1 ;;;
  elapse dt ;;;
  p2 <- resolverCall config svc2 q2 ;;
  ret (p1, p2).

(** Resolver calls issued one after another before any of their promises
    settles. *)
Fixpoint concurrentCalls {T} (config : ClientFeatureCaching)
    (calls : list (Services * IFeatureToggleQuery))
  : Handler T (list (Promise Resolved)) :=
  match calls with
  | [] => ret []
  | (svc, q) :: more =>
      p <- resolverCall config svc q ;;
      ps <- concurrentCalls config more ;;
      ret (p :: ps)
  end.

(** The number of reads of the feature store, and of the segment store, in
    a trace. *)
Fixpoint featureReads (tr : list Event) : nat :=
  match tr with
  | [] => 0%nat
  | EvGetClientFeatures _ :: more => S (featureReads more)
  | _ :: more => featureReads more
  end.

Fixpoint segmentReads (tr : list Event) : nat :=
  match tr with
  | [] => 0%nat
  | EvGetActive :: more => S (segmentReads more)
  | _ :: more => segmentReads more
  end.

End Controller.

(* ================================================================== *)
(** * 3a. The cache invariant and the payload of the list endpoint    *)
(* ================================================================== *)

Section Invariant.
Context {FeatureRest ISegment : Type}.

(** What every cache built by the controller satisfies: the promise of an
    entry was created earlier, and an entry whose expiry timer is armed
    holds a fulfilled promise. *)
Definition cacheOk {T} (s : @St FeatureRest ISegment T) : Prop :=
  forall k e, cache s !! k = Some e ->
    (pid (promise e) < nextPromise s)%nat
    /\ (forall t, armedAt e = Some t -> exists v, outcome (promise e) = Fulfilled v).

(** The payload of the list endpoint: the segments are a field of their own
    for a client with the segments capability and are left out otherwise. *)
Definition payloadOf (svc : @IUnleashServices FeatureRest ISegment)
    (req : IAuthRequest) (q : IFeatureToggleQuery) (m : IMeta)
    (fs : @Resolution FeatureRest ISegment)
  : @ClientFeaturesSchema FeatureRest ISegment :=
  mkPayload version (fst fs) q
    (if requestSupportsSpec svc req "segments" then Some (snd fs) else None) m.

End Invariant.

(* ================================================================== *)
(** * 3b. The project store: mapping database rows                     *)
(* ================================================================== *)

Module ProjectStore.

(** A row of the projects table as the database driver delivers it; a
    column that is NULL (or was not selected) is [None].  Timestamps are
    milliseconds since the epoch. *)
Record ProjectRow := mkProjectRow {
  row_id : string;
  row_name : string;
  row_description : option string;
  row_created_at : option Z;
  row_health : option Z;
  row_updated_at : option Z;
  row_change_request_enabled : option bool
}.

(** [IProject]. *)
Record IProject := mkProject {
  project_id : string;
  project_name : string;
  project_description : option string;
  createdAt : option Z;
  health : Z;
  updatedAt : Z;
  changeRequestsEnabled : bool
}.

(** [x || d] for a nullable integer: NULL and 0 are falsy. *)
Definition numberOr (x : option Z) (d : Z) : Z :=
  match x with
  | Some n => if n =? 0 then d else n
  | None => d
  end.

(** [x || d] for a nullable date: every date is truthy. *)
Definition dateOr (x : option Z) (d : Z) : Z :=
  match x with
  | Some t => t
  | None => d
  end.

(** [x || false] for a nullable boolean. *)
Definition boolOrFalse (x : option bool) : bool :=
  match x with
  | Some b => b
  | None => false
  end.

(** [mapRow]; [row] is [None] when the query found no row, [now] is the
    value of [new Date()]. *)
Definition mapRow (now : Z) (row : option ProjectRow) : Outcome IProject :=
  match row with
  | None => Thrown (NotFoundError "No project found")
  | Some r =>
      Returned (mkProject (row_id r) (row_name r) (row_description r)
                          (row_created_at r)
                          (numberOr (row_health r) 100)
                          (dateOr (row_updated_at r) now)
                          (boolOrFalse (row_change_request_enabled r)))
  end.

Section Counts.
(** The values of the count columns and JavaScript numbers are left
    abstract: [Number] converts a column value, [falsy] tells whether a
    number is 0 or NaN, [zero] is 0. *)
Context {Col JsNumber : Type}.
Variable Number : Col -> JsNumber.
Variable falsy : JsNumber -> bool.
Variable zero : JsNumber.

(** A row of the projects-with-feature-count query. *)
Record CountRow := mkCountRow {
  count_id : string;
  count_name : string;
  count_description : option string;
  count_health : option Z;
  count_updated_at : option Z;
  count_change_request_enabled : option bool;
  number_of_features : Col;
  number_of_users : Col
}.

(** [IProjectMembersCount], a row of the member-count query. *)
Record IProjectMembersCount := mkMembers {
  members_count : Col;
  members_project : string
}.

(** [IProjectWithCount]; [memberCount] is [None] when it is [undefined]. *)
Record IProjectWithCount := mkWithCount {
  wc_name : string;
  wc_id : string;
  wc_description : option string;
  wc_health : option Z;
  featureCount : JsNumber;
  memberCount : option JsNumber;
  wc_updatedAt : option Z;
  wc_changeRequestsEnabled : bool
}.

(** [Number(x) || 0]. *)
Definition numberOrZero (x : Col) : JsNumber :=
  if falsy (Number x) then zero else Number x.

(** [mapProjectWithCountRow]. *)
Definition mapProjectWithCountRow (row : CountRow) : IProjectWithCount :=
  mkWithCount (count_name row) (count_id row) (count_description row)
              (count_health row)
              (numberOrZero (number_of_features row))
              (Some (numberOrZero (number_of_users row)))
              (count_updated_at row)
              (boolOrFalse (count_change_request_enabled row)).

(** [new Map(pairs)]: a later pair replaces an earlier one with its key. *)
Definition newMap (pairs : list (string * JsNumber)) : gmap string JsNumber :=
  fold_left (fun m kv => <[fst kv := snd kv]> m) pairs ∅.

(** [getProjectsWithCounts] from the point where the two queries have
    answered: [projectAndFeatureCount] are the rows of the first,
    [memberCount] those of [getMembersCount]. *)
Definition getProjectsWithCounts (projectAndFeatureCount : list CountRow)
    (memberCount : list IProjectMembersCount) : list IProjectWithCount :=
  let projectsWithFeatureCount :=
    map mapProjectWithCountRow projectAndFeatureCount in
  let memberMap :=
    newMap (map (fun c => (members_project c, Number (members_count c)))
                memberCount) in
  map (fun r => mkWithCount (wc_name r) (wc_id r) (wc_description r)
                            (wc_health r) (featureCount r)
                            (memberMap !! wc_id r)
                            (wc_updatedAt r) (wc_changeRequestsEnabled r))
      projectsWithFeatureCount.

End Counts.

End ProjectStore.

(* ================================================================== *)
(** * 3c. The readme table of the documentation site                   *)
(* ================================================================== *)

Module Readmes.

(** [type Readme]. *)
Record Readme := mkReadme {
  sidebarName : string;
  branch : option string;
  slugName : option string
}.

(** [type ReadmeData], with the slug and the branch filled in. *)
Record ReadmeData := mkReadmeData {
  data_sidebarName : string;
  repoUrl : string;
  data_slugName : string;
  data_branch : string
}.

(** [SDKS_base]: the entries of the object literal, in order.  The keys of
    an object are distinct. *)
Definition SDKS_base : list (string * Readme) :=
  [("unleash-client-go", mkReadme "Go" (Some "v3") None);
   ("unleash-client-java", mkReadme "Java" None None);
   ("unleash-client-rust", mkReadme "Rust" None None)].

Definition docsUrl : string := "https://docs.getunleash.io".

(** [s.startsWith(p)]. *)
Definition startsWith (p s : string) : bool := String.prefix p s.

(** [s.substring(n)]. *)
Definition substringFrom (n : nat) (s : string) : string :=
  String.substring n (String.length s - n) s.

(** [obj[key]] for an object given by its entries; a key that is not
    among them gives [None] (properties inherited from the prototype are not
    modelled). *)
Fixpoint property {A} (key : string) (entries : list (string * A))
  : option A :=
  match entries with
  | [] => None
  | (k, v) :: more => if String.eqb k key then Some v else property key more
  end.

Section Table.
(** [String.prototype.toLowerCase], and the table the functions work on. *)
Variable toLowerCase : string -> string.
Variable base : list (string * Readme).

(** The entry of [SDKS] made from one entry of the base table. *)
Definition sdkEntry (entry : string * Readme) : string * ReadmeData :=
  let repoName := fst entry in
  let repoData := snd entry in
  let url := "https://github.com/Unleash/" +:+ repoName in
  let slug := toLowerCase (default (sidebarName repoData) (slugName repoData)) in
  let br := default "main" (branch repoData) in
  (repoName, mkReadmeData (sidebarName repoData) url slug br).

(** [SDKS]. *)
Definition SDKS : list (string * ReadmeData) := map sdkEntry base.

(** [getReadmeRepoData]. *)
Definition getReadmeRepoData (filename : string) : option ReadmeData :=
  let repoName := hd EmptyString (split "/" filename) in
  property repoName SDKS.

(** [documentUrls]. *)
Definition documentUrls : list string :=
  map (fun entry => fst entry +:+ "/" +:+ data_branch (snd entry)
                    +:+ "/README.md") SDKS.

End Table.

(** The [replacer] of [replaceLinks], for the repository [repo_url] at
    [repo_branch]; [isURL] tells whether [new URL(url)] succeeds, that is
    whether [url] is absolute. *)
Definition replacer (isURL : string -> bool) (repo_url repo_branch : string)
    (url : string) : string :=
  if startsWith docsUrl url then substringFrom (String.length docsUrl) url
  else if isURL url then url
  else if startsWith "#" url then url
  else
    let separator := if startsWith "/" url then EmptyString else "/" in
    repo_url +:+ "/blob/" +:+ repo_branch +:+ separator +:+ url.

End Readmes.

(* ================================================================== *)
(** * 4. Concrete collaborators for the example runs                   *)
(* ================================================================== *)

Module Sample.

(** A tag filter has the form [type:value]: it contains the separator. *)
Definition tagOk (s : string) : bool := occurs colon s.

Definition schema : Schema :=
  mkSchema tagOk (fun _ => true) (fun _ => true) (fun _ => true).

Definition joinWith (sep : string) (l : list string) : string :=
  fold_right (fun x acc => x +:+ sep +:+ acc) EmptyString l.

Definition renderOpt {A} (f : A -> string) (o : option A) : string :=
  match o with
  | None => "-"
  | Some a => "+" +:+ f a
  end.

(** A stand-in for the fingerprint function: a fixed-order rendering of the
    descriptor's fields. *)
Definition fingerprint (q : IFeatureToggleQuery) : string :=
  renderOpt (fun t => joinWith ";" (map (joinWith ",") t)) (tag q)
  +:+ "|" +:+ renderOpt (joinWith ",") (project q)
  +:+ "|" +:+ renderOpt id (namePrefix q)
  +:+ "|" +:+ renderOpt id (environment q)
  +:+ "|" +:+ renderOpt (fun b : bool => if b then "T" else "F")
                        (inlineSegmentConstraints q).

(** The all-projects sentinel is the one-element list holding [ALL]. *)
Definition allProjects (ps : list string) : bool :=
  match ps with
  | [p] => String.eqb p "*"
  | _ => false
  end.

Definition imports : Imports :=
  {| hashSum := fingerprint;
     ALL := "*";
     isAllProjects := allProjects;
     querySchema := schema |}.

(** Features carry an enabled flag besides their name; segments are names. *)
Definition feature (n : string) (on : bool)
  : @FeatureConfigurationClient bool := mkFeature n on.

Definition toggles : list (@FeatureConfigurationClient bool) :=
  [feature "alpha" true; feature "alphabet" false; feature "beta" true].

(** A client supports the segments capability when it sends the client-spec
    header. *)
Definition supportsSpec (req : IAuthRequest) (_ : string) : bool :=
  bool_decide (is_Some (headers req !! "unleash-client-spec")).

(** The stores answer, and the revision service reports [rev]. *)
Definition services (rev : Z) : @IUnleashServices bool string :=
  mkServices (fun _ => Fulfilled toggles) (Fulfilled ["seg"]) false
             (Fulfilled rev) supportsSpec.

(** The feature store fails. *)
Definition brokenServices (rev : Z) : @IUnleashServices bool string :=
  mkServices (fun _ => Rejected (UpstreamError "features"))
             (Fulfilled ["seg"]) false (Fulfilled rev) supportsSpec.

Definition caching : ClientFeatureCaching := mkCaching true 600.

Definition noFilters : RawQuery :=
  mkRaw PUndefined PUndefined PUndefined PUndefined None.

(** A request from a client that resolves segments itself. *)
Definition request (u : User) (q : RawQuery) (ifNoneMatch : option string)
  : IAuthRequest :=
  mkRequest u q
    (match ifNoneMatch with
     | Some v => <["if-none-match" := v]> {["unleash-client-spec" := "4.2.0"]}
     | None => {["unleash-client-spec" := "4.2.0"]}
     end)
    "alpha".

(** A request from a client that does not declare the segments capability. *)
Definition legacyRequest (u : User) (q : RawQuery) : IAuthRequest :=
  mkRequest u q ∅ "alpha".

(** The state before the first request. *)
Definition initial {T} : @St bool string T := mkSt freshResponse ∅ 0%nat 0 [].

End Sample.

(* ================================================================== *)
(** * 4a. More concrete data for the example runs                      *)
(* ================================================================== *)

Module SampleMore.

(** Lower case for ASCII letters, standing in for [toLowerCase]. *)
Definition lowerChar (c : ascii) : ascii :=
  let n := nat_of_ascii c in
  if (65 <=? n)%nat && (n <=? 90)%nat then ascii_of_nat (n + 32) else c.

Fixpoint lower (s : string) : string :=
  match s with
  | EmptyString => EmptyString
  | String c rest => String (lowerChar c) (lower rest)
  end.

(** An absolute URL, for the example, is one that names a scheme. *)
Definition hasScheme (url : string) : bool :=
  String.prefix "https://" url || String.prefix "http://" url.

(** A feature store that applies the name prefix of the query it is given. *)
Definition prefixStore (q : IFeatureToggleQuery)
  : Settled (list (@FeatureConfigurationClient bool)) :=
  Fulfilled (List.filter
               (fun t => String.prefix (default EmptyString (namePrefix q))
                                       (name t))
               Sample.toggles).

Definition prefixServices (rev : Z) : @IUnleashServices bool string :=
  mkServices prefixStore (Fulfilled ["seg"]) false (Fulfilled rev)
             Sample.supportsSpec.

(** The state the first poll of an unfiltered client leaves behind, with a
    new response object for the next request. *)
Definition afterFirstPoll
  : @St bool string (@ClientFeaturesSchema bool string) :=
  let s := snd (getAll (H := Sample.imports) Sample.caching (Sample.services 1)
                       (Sample.request OtherUser Sample.noFilters None)
                       Sample.initial) in
  mkSt freshResponse (cache s) (nextPromise s) (clock s) (trace s).

End SampleMore.

(* ================================================================== *)
(** * 5. Strings and the validator                                     *)
(* ================================================================== *)

Lemma occurs_append (c : ascii) (a b : string) :
  occurs c (a +:+ b) = occurs c a || occurs c b.
Proof.
  induction a as [|d a IH]; simpl; [reflexivity|].
  rewrite IH. now rewrite orb_assoc.
Qed.

Lemma digits_no_colon (d : Decimal.uint) :
  occurs colon (NilEmpty.string_of_uint d) = false.
Proof. induction d; simpl; auto. Qed.

Lemma Number_toString_no_colon (n : Z) :
  occurs colon (Number_toString n) = false.
Proof.
  unfold Number_toString, NilZero.string_of_int, NilZero.string_of_uint.
  destruct (Z.to_int n) as [d|d]; destruct d; simpl;
    auto using digits_no_colon.
Qed.

Lemma Number_toString_inj (a b : Z) :
  Number_toString a = Number_toString b -> a = b.
Proof.
  unfold Number_toString. intros E.
  assert (nz : forall z, Z.to_int z <> Decimal.Pos Decimal.Nil
                      /\ Z.to_int z <> Decimal.Neg Decimal.Nil).
  { intros [|p|p]; simpl; split; try discriminate;
      intros [= E']; now apply (DecimalPos.Unsigned.to_uint_nonnil p). }
  pose proof (NilZero.isi (Z.to_int a) (proj1 (nz a)) (proj2 (nz a))) as Ha.
  pose proof (NilZero.isi (Z.to_int b) (proj1 (nz b)) (proj2 (nz b))) as Hb.
  rewrite E in Ha. rewrite Ha in Hb. injection Hb as Hab.
  rewrite <- (DecimalZ.of_to a), <- (DecimalZ.of_to b). now f_equal.
Qed.

(** A string is cut in one way only at its last separator. *)
Lemma cut_at_last_colon (h1 h2 d1 d2 : string) :
  occurs colon d1 = false -> occurs colon d2 = false ->
  h1 +:+ String colon d1 = h2 +:+ String colon d2 ->
  h1 = h2 /\ d1 = d2.
Proof.
  intros N1 N2. revert h2.
  induction h1 as [|c h1 IH]; intros [|c' h2]; simpl; intros E.
  - now injection E.
  - injection E as Ec Ed. rewrite Ed, occurs_append in N1. simpl in N1.
    rewrite orb_true_r in N1. discriminate.
  - injection E as Ec Ed. rewrite <- Ed, occurs_append in N2. simpl in N2.
    rewrite orb_true_r in N2. discriminate.
  - injection E as -> E. destruct (IH _ E) as [-> ->]. auto.
Qed.

Lemma etagOf_inj (h1 h2 : string) (r1 r2 : Z) :
  etagOf h1 r1 = etagOf h2 r2 -> h1 = h2 /\ r1 = r2.
Proof.
  unfold etagOf, dquote. simpl. intros [= E].
  assert (Q : forall r, occurs colon (Number_toString r +:+ String "034" "") = false).
  { intros r. rewrite occurs_append, Number_toString_no_colon. reflexivity. }
  destruct (cut_at_last_colon _ _ _ _ (Q r1) (Q r2) E) as [-> E'].
  split; [reflexivity|].
  apply Number_toString_inj.
  revert E'. generalize (Number_toString r1) (Number_toString r2).
  intros a. induction a as [|c a IH]; intros [|c' b]; simpl; intros E'';
    try reflexivity.
  - destruct b; discriminate.
  - destruct a; discriminate.
  - injection E'' as -> E''. f_equal. auto.
Qed.

(* ================================================================== *)
(** * 6. Properties of the controller                                  *)
(* ================================================================== *)

Section Properties.
Context `{Imports} {FeatureRest ISegment : Type}.

Local Abbreviation Feature := (@FeatureConfigurationClient FeatureRest).
Local Abbreviation Services := (@IUnleashServices FeatureRest ISegment).
Local Abbreviation Resolved := (@Resolution FeatureRest ISegment).
Local Abbreviation Entry := (@CacheEntry FeatureRest ISegment).
Local Abbreviation State := (@St FeatureRest ISegment).
Local Abbreviation Handler := (@M FeatureRest ISegment).

(** ** The validator *)

Lemma calculateMeta_run {T} (svc : Services) (q : IFeatureToggleQuery)
    (s : State T) :
  calculateMeta svc q s =
  match getMaxRevisionId svc with
  | Fulfilled r =>
      (Returned (mkMeta r (etagOf (hashSum q) r) (hashSum q)),
       mkSt (res s) (cache s) (nextPromise s) (clock s)
            (trace s ++ [EvGetMaxRevisionId]))
  | Rejected e =>
      (Thrown e,
       mkSt (res s) (cache s) (nextPromise s) (clock s)
            (trace s ++ [EvGetMaxRevisionId]))
  end.
Proof.
  unfold calculateMeta, bind, emit, await. simpl.
  destruct (getMaxRevisionId svc); reflexivity.
Qed.

(** C4: the validator is the fingerprint and the revision number joined by a
    colon and wrapped in double quotes; two validators are equal exactly when
    fingerprint and revision both agree, so for one query a changed revision
    changes the validator. *)
Theorem calculateMeta_validator {T} (svc1 svc2 : Services)
    (q1 q2 : IFeatureToggleQuery) (r1 r2 : Z) (s1 s2 : State T) :
  getMaxRevisionId svc1 = Fulfilled r1 ->
  getMaxRevisionId svc2 = Fulfilled r2 ->
  exists m1 m2,
    fst (calculateMeta svc1 q1 s1) = Returned m1
    /\ fst (calculateMeta svc2 q2 s2) = Returned m2
    /\ revisionId m1 = r1 /\ queryHash m1 = hashSum q1
    /\ etag m1 = dquote +:+ hashSum q1 +:+ ":" +:+ Number_toString r1 +:+ dquote
    /\ (etag m1 = etag m2 <-> hashSum q1 = hashSum q2 /\ r1 = r2)
    /\ (q1 = q2 -> r1 <> r2 -> etag m1 <> etag m2).
Proof.
  intros E1 E2. rewrite !calculateMeta_run, E1, E2. simpl.
  eexists _, _. do 5 (split; [reflexivity|]). simpl. split; [split|].
  - apply etagOf_inj.
  - intros [-> ->]. reflexivity.
  - intros -> Hr E. apply etagOf_inj in E. tauto.
Qed.

(** ** The query normaliser *)

Ltac raw_fields :=
  cbn [raw_tag raw_project raw_namePrefix raw_environment
       raw_inlineSegmentConstraints] in *.

Lemma truthy_nonempty (s : string) : s <> EmptyString -> truthy (PString s) = true.
Proof.
  intros Hs. simpl. destruct (String.eqb_spec s EmptyString); [contradiction|reflexivity].
Qed.

Lemma paramToArray_scalar (s : string) :
  s <> EmptyString -> paramToArray (PString s) = PArray [s].
Proof.
  intros Hs. unfold paramToArray. now rewrite truthy_nonempty.
Qed.

Lemma paramToArray_array (l : list string) : paramToArray (PArray l) = PArray l.
Proof. reflexivity. Qed.

(** A query with a truthy filter is validated, never short-circuited. *)
Lemma prepQuery_validated (r : RawQuery) :
  truthy (raw_tag r) || truthy (raw_project r) || truthy (raw_namePrefix r)
  || truthy (raw_environment r) = true ->
  prepQuery r =
  match validateAsync (mkRaw (paramToArray (raw_tag r))
                             (paramToArray (raw_project r))
                             (raw_namePrefix r) (raw_environment r)
                             (raw_inlineSegmentConstraints r)) with
  | Rejected e => Rejected e
  | Fulfilled v =>
      Fulfilled (mkQuery (option_map (map (split colon)) (v_tag v))
                         (v_project v) (v_namePrefix v) (v_environment v)
                         (v_inlineSegmentConstraints v))
  end.
Proof.
  intros Ht. unfold prepQuery.
  destruct (truthy (raw_tag r)), (truthy (raw_project r)),
    (truthy (raw_namePrefix r)), (truthy (raw_environment r));
    simpl in *; try reflexivity; discriminate.
Qed.

(** What a successful normalisation of a list-valued filter returns: the
    list as it was supplied. *)
Lemma prepQuery_keeps_lists (r : RawQuery) (d : IFeatureToggleQuery) :
  prepQuery r = Fulfilled d ->
  (forall l, raw_project r = PArray l -> project d = Some l)
  /\ (forall l, raw_tag r = PArray l -> tag d = Some (map (split colon) l)).
Proof.
  intros E. split; intros l El.
  - rewrite prepQuery_validated in E by (rewrite El; simpl; now rewrite !orb_true_r).
    unfold validateAsync in E. simpl in E. rewrite El in E. simpl in E.
    destruct (validateArray _ (paramToArray (raw_tag r))); [|discriminate].
    destruct (forallb _ l); [|discriminate]. simpl in E.
    destruct (validateString _ (raw_namePrefix r)); [|discriminate].
    destruct (validateString _ (raw_environment r)); [|discriminate].
    injection E as <-. reflexivity.
  - rewrite prepQuery_validated in E by (rewrite El; reflexivity).
    unfold validateAsync in E. simpl in E. rewrite El in E. simpl in E.
    destruct (forallb _ l); [|discriminate]. simpl in E.
    destruct (validateArray _ (paramToArray (raw_project r))); [|discriminate].
    destruct (validateString _ (raw_namePrefix r)); [|discriminate].
    destruct (validateString _ (raw_environment r)); [|discriminate].
    injection E as <-. reflexivity.
Qed.

(** C5, as the code has it: a filter given as one string and the same filter
    given as a one-element list normalise to the same descriptor, hence to
    the same fingerprint; a list-valued filter keeps the order in which it
    was supplied. *)
Theorem prepQuery_scalar_or_list (r : RawQuery) (s : string) :
  s <> EmptyString ->
  prepQuery (mkRaw (PString s) (raw_project r) (raw_namePrefix r)
                   (raw_environment r) (raw_inlineSegmentConstraints r))
  = prepQuery (mkRaw (PArray [s]) (raw_project r) (raw_namePrefix r)
                     (raw_environment r) (raw_inlineSegmentConstraints r))
  /\ prepQuery (mkRaw (raw_tag r) (PString s) (raw_namePrefix r)
                      (raw_environment r) (raw_inlineSegmentConstraints r))
     = prepQuery (mkRaw (raw_tag r) (PArray [s]) (raw_namePrefix r)
                        (raw_environment r) (raw_inlineSegmentConstraints r))
  /\ (forall r1 r2 d1 d2, prepQuery r1 = prepQuery r2 ->
        prepQuery r1 = Fulfilled d1 -> prepQuery r2 = Fulfilled d2 ->
        hashSum d1 = hashSum d2)
  /\ (forall d l, prepQuery r = Fulfilled d ->
        (raw_project r = PArray l -> project d = Some l)
        /\ (raw_tag r = PArray l -> tag d = Some (map (split colon) l))).
Proof.
  intros Hs.
  pose proof (truthy_nonempty s Hs) as Ts.
  pose proof (paramToArray_scalar s Hs) as Ps.
  assert (Ta : truthy (PArray [s]) = true) by reflexivity.
  split; [|split; [|split]].
  - rewrite !prepQuery_validated; raw_fields;
      rewrite ?Ts, ?Ta, ?Ps, ?paramToArray_array; reflexivity.
  - rewrite !prepQuery_validated; raw_fields;
      rewrite ?Ts, ?Ta, ?Ps, ?paramToArray_array, ?orb_true_r; reflexivity.
  - intros r1 r2 d1 d2 E E1 E2. rewrite E, E2 in E1. now injection E1 as ->.
  - intros d l E. destruct (prepQuery_keeps_lists r d E) as [Hp Ht].
    split; auto.
Qed.

(** C6, as the code has it: when the four optional filters are missing or
    the empty string and the segment-inlining flag is not set, normalisation
    returns the empty descriptor without validating, so the fingerprint is
    that of the empty descriptor every time. *)
Theorem prepQuery_no_filters (r : RawQuery) :
  truthy (raw_tag r) = false ->
  truthy (raw_project r) = false ->
  truthy (raw_namePrefix r) = false ->
  truthy (raw_environment r) = false ->
  raw_inlineSegmentConstraints r <> Some true ->
  prepQuery r = Fulfilled emptyQuery
  /\ (forall d, prepQuery r = Fulfilled d -> hashSum d = hashSum emptyQuery).
Proof.
  intros Ht Hp Hn He Hi.
  assert (E : prepQuery r = Fulfilled emptyQuery).
  { unfold prepQuery. rewrite Ht, Hp, Hn, He. simpl.
    destruct (raw_inlineSegmentConstraints r) as [[|]|]; simpl;
      [contradiction|reflexivity|reflexivity]. }
  split; [exact E|]. intros d Ed. rewrite E in Ed. now injection Ed as <-.
Qed.

(** C7: for an API user restricted to a project list, the client's project
    filter has no influence on the normalised query, whose project filter is
    the user's list; for an API user bound to one environment, the client's
    environment has no influence either, and the normalised query carries
    the user's environment. *)
Theorem resolveQuery_override (svc : Services) (req1 req2 : IAuthRequest)
    (projects : list string) (env : string) :
  user req1 = ApiUser projects env ->
  user req2 = ApiUser projects env ->
  raw_tag (query req1) = raw_tag (query req2) ->
  raw_namePrefix (query req1) = raw_namePrefix (query req2) ->
  requestSupportsSpec svc req1 "segments" = requestSupportsSpec svc req2 "segments" ->
  (isAllProjects projects = false ->
   raw_environment (query req1) = raw_environment (query req2) ->
   resolveQuery svc req1 = resolveQuery svc req2
   /\ forall d, resolveQuery svc req1 = Fulfilled d -> project d = Some projects)
  /\ (env <> ALL ->
      raw_project (query req1) = raw_project (query req2) ->
      resolveQuery svc req1 = resolveQuery svc req2
      /\ forall d, resolveQuery svc req1 = Fulfilled d ->
           env <> EmptyString -> environment d = Some env).
Proof.
  intros U1 U2 Et En Es. unfold resolveQuery, spread. rewrite U1, U2, Et, En, Es.
  cbn [overrideOf override_project override_environment]. split.
  - intros Hall Ee. rewrite Hall, Ee. cbn [negb]. split; [reflexivity|].
    intros d E. now apply (prepQuery_keeps_lists _ _ E).
  - intros Henv Ep. apply String.eqb_neq in Henv. rewrite Henv, Ep. cbn [negb].
    split; [reflexivity|]. intros d E Hne.
    rewrite prepQuery_validated in E
      by (raw_fields; rewrite (truthy_nonempty env Hne); now rewrite !orb_true_r).
    unfold validateAsync in E. raw_fields.
    destruct (validateArray _ _); [|discriminate].
    destruct (validateArray _ _); [|discriminate].
    destruct (validateString _ _); [|discriminate].
    cbn [validateString] in E.
    destruct (environmentSyntax querySchema env); [|discriminate].
    injection E as <-. reflexivity.
Qed.

(** ** Runs of the resolver *)

Lemma resolveFeaturesAndSegments_run {T} (svc : Services)
    (q : IFeatureToggleQuery) (s : State T) :
  resolveFeaturesAndSegments svc q s =
  (Returned (mkPromise (nextPromise s)
               (Promise_all (getClientFeatures svc q) (getActive svc)
                            (getActiveSettlesFirst svc))),
   mkSt (res s) (cache s) (S (nextPromise s)) (clock s)
        (trace s ++ [EvGetClientFeatures q; EvGetActive])).
Proof.
  unfold resolveFeaturesAndSegments, bind, emit, newPromise. simpl.
  now rewrite <- app_assoc.
Qed.

(** A call that misses: the resolver runs and its promise is stored. *)
Lemma featuresAndSegments_miss {T} (config : ClientFeatureCaching)
    (svc : Services) (q : IFeatureToggleQuery) (key : string) (s : State T) :
  enabled config = true -> cache s !! key = None ->
  featuresAndSegments config svc q key s =
  let p := mkPromise (nextPromise s)
             (Promise_all (getClientFeatures svc q) (getActive svc)
                          (getActiveSettlesFirst svc)) in
  (Returned p,
   mkSt (res s) (<[key := mkEntry p (maxAge config) None]> (cache s))
        (S (nextPromise s)) (clock s)
        (trace s ++ [EvFeaturesAndSegments q key; EvGetClientFeatures q;
                     EvGetActive])).
Proof.
  intros En Miss. unfold featuresAndSegments, bind, emit. rewrite En.
  unfold memoizee. cbn [cache]. rewrite Miss.
  rewrite resolveFeaturesAndSegments_run. simpl. now rewrite <- app_assoc.
Qed.

(** A call that hits: the stored promise is returned, no store is read. *)
Lemma featuresAndSegments_hit {T} (config : ClientFeatureCaching)
    (svc : Services) (q : IFeatureToggleQuery) (key : string) (s : State T)
    (e : CacheEntry) :
  enabled config = true -> cache s !! key = Some e ->
  featuresAndSegments config svc q key s =
  (Returned (promise e),
   mkSt (res s) (cache s) (nextPromise s) (clock s)
        (trace s ++ [EvFeaturesAndSegments q key])).
Proof.
  intros En Hit. unfold featuresAndSegments, bind, emit. rewrite En.
  unfold memoizee. cbn [cache]. now rewrite Hit.
Qed.

(** With caching disabled every call runs the resolver. *)
Lemma featuresAndSegments_direct {T} (config : ClientFeatureCaching)
    (svc : Services) (q : IFeatureToggleQuery) (key : string) (s : State T) :
  enabled config = false ->
  featuresAndSegments config svc q key s =
  (Returned (mkPromise (nextPromise s)
               (Promise_all (getClientFeatures svc q) (getActive svc)
                            (getActiveSettlesFirst svc))),
   mkSt (res s) (cache s) (S (nextPromise s)) (clock s)
        (trace s ++ [EvFeaturesAndSegments q key; EvGetClientFeatures q;
                     EvGetActive])).
Proof.
  intros En. unfold featuresAndSegments, bind, emit. rewrite En.
  rewrite resolveFeaturesAndSegments_run. simpl. now rewrite <- app_assoc.
Qed.

(** Every call of the field returns a promise, leaves the response alone and
    is recorded first among the calls it causes. *)
Lemma featuresAndSegments_returns {T} (config : ClientFeatureCaching)
    (svc : Services) (q : IFeatureToggleQuery) (key : string) (s : State T) :
  exists p s1 (tr : list Event),
    featuresAndSegments config svc q key s = (Returned p, s1)
    /\ res s1 = res s
    /\ trace s1 = trace s ++ EvFeaturesAndSegments q key :: tr.
Proof.
  destruct (enabled config) eqn:En.
  - destruct (cache s !! key) as [e|] eqn:L.
    + rewrite (featuresAndSegments_hit _ _ _ _ _ e En L). eauto 6.
    + rewrite (featuresAndSegments_miss _ _ _ _ _ En L). cbv zeta. eauto 6.
  - rewrite (featuresAndSegments_direct _ _ _ _ _ En). eauto 6.
Qed.

Lemma awaitPromise_frame {T} (p : Promise Resolved) (s : State T) :
  res (snd (awaitPromise p s)) = res s
  /\ trace (snd (awaitPromise p s)) = trace s
  /\ fst (awaitPromise p s) =
     match outcome p with
     | Fulfilled v => Returned v
     | Rejected e => Thrown e
     end.
Proof.
  unfold awaitPromise, bind, settle, await. simpl.
  destruct (outcome p); simpl; auto.
Qed.

(** ** The conditional response gate *)

Lemma bind_returned {T A B} (m : Handler T A) (k : A -> Handler T B)
    (s s' : State T) (a : A) :
  m s = (Returned a, s') -> bind m k s = k a s'.
Proof. intros E. unfold bind. now rewrite E. Qed.

Lemma bind_thrown {T A B} (m : Handler T A) (k : A -> Handler T B)
    (s s' : State T) (e : Error) :
  m s = (Thrown e, s') -> bind m k s = (Thrown e, s').
Proof. intros E. unfold bind. now rewrite E. Qed.

(** The list endpoint from the point where the validator is known. *)
Lemma getAll_after_meta (config : ClientFeatureCaching) (svc : Services)
    (req : IAuthRequest) (q : IFeatureToggleQuery) (rev : Z)
    (s : State (@ClientFeaturesSchema FeatureRest ISegment)) :
  resolveQuery svc req = Fulfilled q ->
  getMaxRevisionId svc = Fulfilled rev ->
  let fresh := etagOf (hashSum q) rev in
  let m := mkMeta rev fresh (hashSum q) in
  let s1 := mkSt (setHeader "ETag" fresh (res s)) (cache s) (nextPromise s)
                 (clock s) (trace s ++ [EvGetMaxRevisionId]) in
  getAll config svc req s =
  if decide (Some fresh = headers req !! "if-none-match") then
    (Returned tt,
     mkSt (endResponse (status 304 (res s1))) (cache s) (nextPromise s)
          (clock s) (trace s1))
  else
    (p <- featuresAndSegments config svc q fresh ;;
     fs <- awaitPromise p ;;
     if requestSupportsSpec svc req "segments" then
       updateResponse (fun r =>
         respondWithValidation 200 r
           (mkPayload version (fst fs) q (Some (snd fs)) m))
     else
       updateResponse (fun r =>
         respondWithValidation 200 r (mkPayload version (fst fs) q None m))) s1.
Proof.
  intros Eq Er fresh m s1. unfold getAll.
  erewrite bind_returned; [|rewrite Eq; reflexivity].
  erewrite bind_returned; [|rewrite calculateMeta_run, Er; reflexivity].
  erewrite bind_returned; [|reflexivity].
  cbn [etag]. fold fresh. fold m.
  destruct (decide (Some fresh = headers req !! "if-none-match")); reflexivity.
Qed.

(** C3: once the query is normalised and the revision is read, the list
    endpoint answers 304 exactly when the If-None-Match header equals the
    freshly computed validator; in that case the body is empty and nothing
    but the revision is read; and on every path the ETag header holds the
    freshly computed validator. *)
Theorem getAll_gate (config : ClientFeatureCaching) (svc : Services)
    (req : IAuthRequest) (q : IFeatureToggleQuery) (rev : Z)
    (s : State (@ClientFeaturesSchema FeatureRest ISegment)) :
  resolveQuery svc req = Fulfilled q ->
  getMaxRevisionId svc = Fulfilled rev ->
  res s = freshResponse ->
  let fresh := etagOf (hashSum q) rev in
  let out := fst (getAll config svc req s) in
  let s' := snd (getAll config svc req s) in
  resHeaders (res s') !! "ETag" = Some fresh
  /\ (statusCode (res s') = 304 <-> headers req !! "if-none-match" = Some fresh)
  /\ (headers req !! "if-none-match" = Some fresh ->
      out = Returned tt /\ body (res s') = None /\ finished (res s') = true
      /\ trace s' = trace s ++ [EvGetMaxRevisionId]
      /\ cache s' = cache s)
  /\ (headers req !! "if-none-match" <> Some fresh ->
      exists tr : list Event,
        trace s' = trace s ++ EvGetMaxRevisionId
                               :: EvFeaturesAndSegments q fresh :: tr).
Proof.
  intros Eq Er Efresh fresh out s'. subst out s'.
  rewrite (getAll_after_meta config svc req q rev s Eq Er). cbv zeta.
  fold fresh. rewrite Efresh.
  destruct (decide (Some fresh = headers req !! "if-none-match")) as [Eh|Nh].
  - cbn [fst snd res trace cache]. rewrite <- Eh.
    split; [apply lookup_insert_eq|].
    split; [split; reflexivity|].
    split; [intros _; repeat split; reflexivity|].
    intros N. now contradiction N.
  - set (s1 := mkSt _ _ _ _ _).
    destruct (featuresAndSegments_returns config svc q fresh s1)
      as (p & s2 & tr & Ef & Rf & Tf).
    erewrite bind_returned; [|exact Ef].
    destruct (awaitPromise_frame p s2) as (Ra & Ta & Oa).
    destruct (awaitPromise p s2) as [o s3] eqn:Ea.
    cbn [fst snd] in Ra, Ta, Oa.
    assert (Hres : res s3 = setHeader "ETag" fresh freshResponse)
      by (rewrite Ra, Rf; reflexivity).
    assert (Htr : trace s3 = trace s ++ EvGetMaxRevisionId
                               :: EvFeaturesAndSegments q fresh :: tr).
    { rewrite Ta, Tf. subst s1. cbn [trace]. now rewrite <- app_assoc. }
    assert (Nh' : headers req !! "if-none-match" <> Some fresh) by congruence.
    destruct o as [fs|e].
    + erewrite bind_returned; [|exact Ea].
      destruct (requestSupportsSpec svc req "segments");
        unfold updateResponse; cbn [fst snd res trace cache]; rewrite Hres;
        (split; [apply lookup_insert_eq|]);
        (split; [split; [discriminate|contradiction]|]);
        (split; [contradiction|]); intros _; eauto.
    + erewrite bind_thrown; [|exact Ea].
      cbn [fst snd]. rewrite Hres.
      split; [apply lookup_insert_eq|].
      split; [split; [discriminate|contradiction]|].
      split; [contradiction|]. intros _; eauto.
Qed.

(** ** The single-feature endpoint *)

(** The single-feature endpoint from the point where the store has
    answered. *)
Lemma getFeatureToggle_after_read (svc : Services) (req : IAuthRequest)
    (q : IFeatureToggleQuery) (toggles : list Feature) (s : State Feature) :
  resolveQuery svc req = Fulfilled q ->
  getClientFeatures svc (withNamePrefix q (params_featureName req))
    = Fulfilled toggles ->
  let s1 := mkSt (res s) (cache s) (nextPromise s) (clock s)
              (trace s ++ [EvGetClientFeatures
                             (withNamePrefix q (params_featureName req))]) in
  getFeatureToggle svc req s =
  match List.find (fun t => String.eqb (name t) (params_featureName req))
                  toggles with
  | None =>
      (Thrown (NotFoundError ("Could not find feature toggle "
                              +:+ params_featureName req)), s1)
  | Some toggle =>
      (Returned tt,
       mkSt (respondWithValidation 200 (res s) toggle) (cache s)
            (nextPromise s) (clock s) (trace s1))
  end.
Proof.
  intros Eq Et s1. unfold getFeatureToggle.
  erewrite bind_returned; [|rewrite Eq; reflexivity].
  erewrite bind_returned; [|reflexivity].
  erewrite bind_returned; [|rewrite Et; reflexivity].
  destruct (List.find _ toggles); reflexivity.
Qed.

(** The segment-inlining flag of a normalised query is set exactly for a
    client without the segments capability. *)
Lemma resolveQuery_flag (svc : Services) (req : IAuthRequest)
    (d : IFeatureToggleQuery) :
  resolveQuery svc req = Fulfilled d ->
  (inlineSegmentConstraints d = Some true
   <-> requestSupportsSpec svc req "segments" = false).
Proof.
  unfold resolveQuery, prepQuery, spread. raw_fields.
  destruct (requestSupportsSpec svc req "segments"); cbn [negb notFlag].
  - destruct (_ && _ && _ && _ && true).
    + intros [= <-]. cbn. split; discriminate.
    + unfold validateAsync. raw_fields.
      destruct (validateArray _ _); [|discriminate].
      destruct (validateArray _ _); [|discriminate].
      destruct (validateString _ _); [|discriminate].
      destruct (validateString _ _); [|discriminate].
      intros [= <-]. cbn. split; discriminate.
  - rewrite andb_false_r. unfold validateAsync. raw_fields.
    destruct (validateArray _ _); [|discriminate].
    destruct (validateArray _ _); [|discriminate].
    destruct (validateString _ _); [|discriminate].
    destruct (validateString _ _); [|discriminate].
    intros [= <-]. cbn. split; reflexivity.
Qed.

(** The normalised query of an API user carries the user's project list
    when the user is restricted to one, and the user's environment when the
    user is bound to one. *)
Lemma resolveQuery_restricted (svc : Services) (req : IAuthRequest)
    (ps : list string) (env : string) (d : IFeatureToggleQuery) :
  user req = ApiUser ps env ->
  resolveQuery svc req = Fulfilled d ->
  (isAllProjects ps = false -> project d = Some ps)
  /\ (env <> ALL -> env <> EmptyString -> environment d = Some env).
Proof.
  intros U E. unfold resolveQuery, spread in E. rewrite U in E.
  cbn [overrideOf override_project override_environment] in E. split.
  - intros Hall. rewrite Hall in E. cbn [negb] in E.
    now apply (prepQuery_keeps_lists _ _ E).
  - intros Henv Hne. apply String.eqb_neq in Henv. rewrite Henv in E.
    cbn [negb] in E.
    rewrite prepQuery_validated in E
      by (raw_fields; rewrite (truthy_nonempty env Hne); now rewrite !orb_true_r).
    unfold validateAsync in E. raw_fields.
    destruct (validateArray _ _); [|discriminate].
    destruct (validateArray _ _); [|discriminate].
    destruct (validateString _ _); [|discriminate].
    cbn [validateString] in E.
    destruct (environmentSyntax querySchema env); [|discriminate].
    injection E as <-. reflexivity.
Qed.

(** C9: the single-feature endpoint asks the feature store once, with the
    query normalised under the caller's rules (the project list of a
    restricted API user, the environment of a bound one, the segment-inlining
    flag set exactly for a client without the segments capability) and the
    requested name as its name prefix.  When the store answers, the endpoint
    responds with the (first) feature of the answer whose name is exactly
    the requested one, and throws the not-found error when the answer holds
    no feature of that name. *)
Theorem getFeatureToggle_by_name (svc : Services) (req : IAuthRequest)
    (q : IFeatureToggleQuery) (toggles : list Feature) (s : State Feature) :
  resolveQuery svc req = Fulfilled q ->
  getClientFeatures svc (withNamePrefix q (params_featureName req))
    = Fulfilled toggles ->
  let wanted := params_featureName req in
  let sent := withNamePrefix q wanted in
  let out := fst (getFeatureToggle svc req s) in
  let s' := snd (getFeatureToggle svc req s) in
  (trace s' = trace s ++ [EvGetClientFeatures sent]
   /\ namePrefix sent = Some wanted
   /\ tag sent = tag q /\ project sent = project q
   /\ environment sent = environment q
   /\ inlineSegmentConstraints sent = inlineSegmentConstraints q
   /\ (inlineSegmentConstraints sent = Some true
       <-> requestSupportsSpec svc req "segments" = false)
   /\ (forall ps env, user req = ApiUser ps env ->
         isAllProjects ps = false -> project sent = Some ps)
   /\ (forall ps env, user req = ApiUser ps env ->
         env <> ALL -> env <> EmptyString -> environment sent = Some env))
  /\ ((exists t, In t toggles /\ name t = wanted) ->
      exists t, In t toggles /\ name t = wanted
        /\ List.find (fun t => String.eqb (name t) wanted) toggles = Some t
        /\ out = Returned tt
        /\ statusCode (res s') = 200 /\ body (res s') = Some t
        /\ finished (res s') = true)
  /\ ((forall t, In t toggles -> name t <> wanted) ->
      out = Thrown (NotFoundError ("Could not find feature toggle " +:+ wanted))
      /\ res s' = res s).
Proof.
  intros Eq Et wanted sent out s'. subst out s'.
  rewrite (getFeatureToggle_after_read svc req q toggles s Eq Et). cbv zeta.
  fold wanted. fold sent.
  split.
  { split; [destruct (List.find _ toggles); reflexivity|].
    do 5 (split; [reflexivity|]).
    split; [exact (resolveQuery_flag svc req q Eq)|].
    split.
    - intros ps env U Hall.
      exact (proj1 (resolveQuery_restricted svc req ps env q U Eq) Hall).
    - intros ps env U Henv Hne.
      exact (proj2 (resolveQuery_restricted svc req ps env q U Eq) Henv Hne). }
  destruct (List.find _ toggles) as [t|] eqn:F; split.
  - intros _. apply find_some in F as [Hin Hn]. apply String.eqb_eq in Hn.
    exists t. repeat split; auto.
  - intros Hno. apply find_some in F as [Hin Hn]. apply String.eqb_eq in Hn.
    now destruct (Hno t Hin).
  - intros (t & Hin & Hn). pose proof (find_none _ _ F t Hin) as N.
    cbv beta in N. rewrite Hn, String.eqb_refl in N. discriminate.
  - intros _. split; reflexivity.
Qed.

(** C10: the single-feature endpoint reads the feature store itself, with
    the name prefix of the normalised query replaced by the requested name;
    it never calls the memoised resolver, leaves the cache and the response
    headers as they were, and sets no status other than 200. *)
Theorem getFeatureToggle_direct (svc : Services) (req : IAuthRequest)
    (s : State Feature) :
  let wanted := params_featureName req in
  let out := fst (getFeatureToggle svc req s) in
  let s' := snd (getFeatureToggle svc req s) in
  cache s' = cache s /\ nextPromise s' = nextPromise s
  /\ resHeaders (res s') = resHeaders (res s)
  /\ (statusCode (res s') = statusCode (res s) \/ statusCode (res s') = 200)
  /\ match resolveQuery svc req with
     | Fulfilled fq =>
         trace s' = trace s ++ [EvGetClientFeatures (withNamePrefix fq wanted)]
         /\ namePrefix (withNamePrefix fq wanted) = Some wanted
         /\ tag (withNamePrefix fq wanted) = tag fq
         /\ project (withNamePrefix fq wanted) = project fq
         /\ environment (withNamePrefix fq wanted) = environment fq
     | Rejected e => trace s' = trace s /\ out = Thrown e
     end.
Proof.
  intros wanted out s'. subst out s'.
  destruct (resolveQuery svc req) as [fq|e] eqn:Eq.
  - destruct (getClientFeatures svc (withNamePrefix fq wanted)) as [ts|e] eqn:Et.
    + rewrite (getFeatureToggle_after_read svc req fq ts s Eq Et). cbv zeta.
      destruct (List.find _ ts); cbn; repeat split; auto.
    + unfold getFeatureToggle.
      erewrite bind_returned; [|rewrite Eq; reflexivity].
      erewrite bind_returned; [|reflexivity].
      erewrite bind_thrown; [|fold wanted; rewrite Et; reflexivity].
      cbn. repeat split; auto.
  - unfold getFeatureToggle.
    erewrite bind_thrown; [|rewrite Eq; reflexivity].
    cbn. repeat split; auto.
Qed.

(** ** The memoised resolver *)

Lemma settle_lookup {T} (p : Promise Resolved) (s : State T) (k : string) :
  cache (snd (settle p s)) !! k = cache s !! k ≫= settleEntry p (clock s).
Proof. unfold settle. cbn [snd cache]. apply lookup_omap. Qed.

Lemma elapse_lookup {T} (dt : Z) (s : State T) (k : string) :
  cache (snd (elapse dt s)) !! k =
  cache s !! k ≫= (fun e => if expired (clock s + dt) e then None else Some e).
Proof. unfold elapse. cbn [snd cache]. apply lookup_omap. Qed.

Lemma featureReads_app (a b : list Event) :
  featureReads (a ++ b) = (featureReads a + featureReads b)%nat.
Proof.
  induction a as [|ev a IH]; [reflexivity|].
  destruct ev; simpl; rewrite IH; reflexivity.
Qed.

Lemma segmentReads_app (a b : list Event) :
  segmentReads (a ++ b) = (segmentReads a + segmentReads b)%nat.
Proof.
  induction a as [|ev a IH]; [reflexivity|].
  destruct ev; simpl; rewrite IH; reflexivity.
Qed.

(** The resolver call once the revision is read. *)
Lemma resolverCall_run {T} (config : ClientFeatureCaching) (svc : Services)
    (q : IFeatureToggleQuery) (r : Z) (s : State T) :
  getMaxRevisionId svc = Fulfilled r ->
  resolverCall config svc q s =
  featuresAndSegments config svc q (etagOf (hashSum q) r)
    (mkSt (res s) (cache s) (nextPromise s) (clock s)
          (trace s ++ [EvGetMaxRevisionId])).
Proof.
  intros Er. unfold resolverCall.
  erewrite bind_returned; [|rewrite calculateMeta_run, Er; reflexivity].
  reflexivity.
Qed.

(** Calls that find an entry under the validator of each of them leave the
    cache alone, return the entry's promise and read no store. *)
Lemma concurrentCalls_hits {T} (config : ClientFeatureCaching) (rev : Z)
    (h : string) (e : Entry)
    (calls : list (Services * IFeatureToggleQuery)) (s : State T) :
  enabled config = true ->
  Forall (fun c => hashSum (snd c) = h
                   /\ getMaxRevisionId (fst c) = Fulfilled rev) calls ->
  cache s !! etagOf h rev = Some e ->
  exists s',
    concurrentCalls config calls s
      = (Returned (repeat (promise e) (length calls)), s')
    /\ cache s' = cache s /\ nextPromise s' = nextPromise s
    /\ featureReads (trace s') = featureReads (trace s)
    /\ segmentReads (trace s') = segmentReads (trace s).
Proof.
  intros En Hall. revert s.
  induction Hall as [|[svc q] more [Hq Hr] Hmore IH]; intros s Hit.
  - exists s. repeat split; reflexivity.
  - cbn [fst snd] in Hq, Hr. cbn [concurrentCalls].
    erewrite bind_returned;
      [|rewrite (resolverCall_run _ _ _ rev _ Hr), Hq;
        apply (featuresAndSegments_hit _ _ _ _ _ e En); exact Hit].
    set (s1 := mkSt _ _ _ _ _).
    destruct (IH s1 Hit) as (s' & Erun & Ec & En' & Ef & Es).
    erewrite bind_returned; [|exact Erun].
    exists s'. split; [reflexivity|].
    rewrite Ec, En', Ef, Es. subst s1. cbn [cache nextPromise trace].
    rewrite !featureReads_app, !segmentReads_app. cbn.
    repeat split; lia.
Qed.

(** C2: with caching enabled and no entry under the validator, resolver
    calls with one fingerprint at one revision, issued before any of them
    settles, read the feature store once and the segment store once, and
    every caller holds the same promise, hence receives the same result. *)
Theorem concurrentCalls_deduplicated {T} (config : ClientFeatureCaching)
    (rev : Z) (h : string) (svc : Services) (q : IFeatureToggleQuery)
    (more : list (Services * IFeatureToggleQuery)) (s : State T) :
  enabled config = true ->
  Forall (fun c => hashSum (snd c) = h
                   /\ getMaxRevisionId (fst c) = Fulfilled rev)
         ((svc, q) :: more) ->
  cache s !! etagOf h rev = None ->
  let calls := (svc, q) :: more in
  let shared := mkPromise (nextPromise s)
                  (Promise_all (getClientFeatures svc q) (getActive svc)
                               (getActiveSettlesFirst svc)) in
  exists s',
    concurrentCalls config calls s
      = (Returned (repeat shared (length calls)), s')
    /\ featureReads (trace s') = S (featureReads (trace s))
    /\ segmentReads (trace s') = S (segmentReads (trace s))
    /\ (forall p (s0 : State T), In p (repeat shared (length calls)) ->
          fst (awaitPromise p s0) =
          match Promise_all (getClientFeatures svc q) (getActive svc)
                            (getActiveSettlesFirst svc) with
          | Fulfilled v => Returned v
          | Rejected e => Thrown e
          end).
Proof.
  intros En Hall Miss calls shared.
  apply Forall_cons_iff in Hall as [[Hq Hr] Hmore]. cbn [fst snd] in Hq, Hr.
  subst calls. cbn [concurrentCalls].
  erewrite bind_returned;
    [|rewrite (resolverCall_run _ _ _ rev _ Hr), Hq;
      apply (featuresAndSegments_miss _ _ _ _ _ En); exact Miss].
  cbv zeta. cbn [nextPromise res cache clock trace]. fold shared.
  set (s1 := mkSt _ _ _ _ _).
  assert (Hit : cache s1 !! etagOf h rev
                = Some (mkEntry shared (maxAge config) None))
    by (subst s1; cbn [cache]; apply lookup_insert_eq).
  destruct (concurrentCalls_hits config rev h _ more s1 En Hmore Hit)
    as (s' & Erun & _ & _ & Ef & Es).
  erewrite bind_returned; [|exact Erun].
  exists s'. split; [reflexivity|].
  rewrite Ef, Es. subst s1. cbn [trace].
  rewrite !featureReads_app, !segmentReads_app. cbn.
  repeat split; try lia.
  intros p s0 Hin. apply (repeat_spec (S (length more))) in Hin. subst p.
  apply (awaitPromise_frame shared s0).
Qed.

Lemma awaitPromise_run {T} (p : Promise Resolved) (s : State T) :
  awaitPromise p s =
  (match outcome p with
   | Fulfilled v => Returned v
   | Rejected e => Thrown e
   end, snd (settle p s)).
Proof.
  unfold awaitPromise, bind, settle, await. cbn [snd].
  destruct (outcome p); reflexivity.
Qed.

Lemma settle_frame {T} (p : Promise Resolved) (s : State T) :
  nextPromise (snd (settle p s)) = nextPromise s
  /\ clock (snd (settle p s)) = clock s
  /\ trace (snd (settle p s)) = trace s
  /\ res (snd (settle p s)) = res s.
Proof. repeat split. Qed.

Lemma elapse_frame {T} (dt : Z) (s : State T) :
  elapse dt s = (Returned tt, snd (elapse dt s))
  /\ nextPromise (snd (elapse dt s)) = nextPromise s
  /\ clock (snd (elapse dt s)) = clock s + dt
  /\ trace (snd (elapse dt s)) = trace s.
Proof. repeat split. Qed.

(** C1, as the code has it: the cache of the memoised resolver is keyed on
    the validator, which holds the revision.  After a first call has been
    answered, a second call within the time-to-live shares its entry (same
    promise, no store read) exactly when fingerprint and revision both
    agree; with a different revision it reads the stores again. *)
Theorem cache_keyed_on_validator {T} (config : ClientFeatureCaching)
    (svc1 svc2 : Services) (q1 q2 : IFeatureToggleQuery) (r1 r2 dt : Z)
    (v : Resolved) (s : State T) :
  enabled config = true ->
  getMaxRevisionId svc1 = Fulfilled r1 ->
  getMaxRevisionId svc2 = Fulfilled r2 ->
  cache s !! etagOf (hashSum q1) r1 = None ->
  cache s !! etagOf (hashSum q2) r2 = None ->
  Promise_all (getClientFeatures svc1 q1) (getActive svc1)
              (getActiveSettlesFirst svc1) = Fulfilled v ->
  0 <= dt < maxAge config ->
  exists p1 p2 s',
    twoCalls config svc1 q1 dt svc2 q2 s = (Returned (p1, p2), s')
    /\ (p2 = p1 <-> hashSum q1 = hashSum q2 /\ r1 = r2)
    /\ (featureReads (trace s') = S (featureReads (trace s))
        <-> hashSum q1 = hashSum q2 /\ r1 = r2)
    /\ (~ (hashSum q1 = hashSum q2 /\ r1 = r2) ->
        pid p2 <> pid p1
        /\ featureReads (trace s') = S (S (featureReads (trace s)))
        /\ segmentReads (trace s') = S (S (segmentReads (trace s)))).
Proof.
  intros En R1 R2 M1 M2 Ok Hdt. unfold twoCalls.
  erewrite bind_returned;
    [|rewrite (resolverCall_run _ _ _ r1 _ R1);
      apply (featuresAndSegments_miss _ _ _ _ _ En); exact M1].
  cbv zeta. cbn [nextPromise res cache clock trace]. rewrite Ok.
  set (k1 := etagOf (hashSum q1) r1) in *.
  set (k2 := etagOf (hashSum q2) r2) in *.
  set (p1 := mkPromise (nextPromise s) (Fulfilled v)).
  set (s1 := mkSt _ _ _ _ _).
  erewrite bind_returned; [|rewrite awaitPromise_run; reflexivity].
  set (s2 := snd (settle p1 s1)).
  erewrite bind_returned; [|apply elapse_frame].
  set (s3 := snd (elapse dt s2)).
  assert (L3 : cache s3 !! k1
               = Some (mkEntry p1 (maxAge config) (Some (clock s)))
               /\ (k1 <> k2 -> cache s3 !! k2 = None)).
  { subst s3. rewrite !elapse_lookup. subst s2.
    rewrite !settle_lookup. subst s1. cbn [cache clock snd settle]. split.
    - rewrite lookup_insert_eq. cbn [mbind option_bind]. unfold settleEntry.
      cbn [promise pid armedAt outcome ttl p1].
      rewrite Nat.eqb_refl. cbn.
      destruct (Z.leb_spec (clock s + maxAge config) (clock s + dt));
        [lia|reflexivity].
    - intros Nk. rewrite lookup_insert_ne by exact Nk. now rewrite M2. }
  assert (Same : k1 = k2 <-> hashSum q1 = hashSum q2 /\ r1 = r2).
  { subst k1 k2. split; [apply etagOf_inj|]. now intros [-> ->]. }
  destruct (decide (k1 = k2)) as [Ek|Nk].
  - destruct L3 as [Hit _]. rewrite Ek in Hit.
    erewrite bind_returned;
      [|rewrite (resolverCall_run _ _ _ r2 _ R2);
        eapply featuresAndSegments_hit; [exact En|exact Hit]].
    eexists _, _, _. split; [reflexivity|].
    cbn [promise trace pid elapse settle snd]. subst s1. cbn [trace].
    rewrite !featureReads_app. cbn.
    split; [tauto|]. split; [split; [tauto|intros _; lia]|].
    intros N. tauto.
  - destruct L3 as [_ Miss]. specialize (Miss Nk).
    erewrite bind_returned;
      [|rewrite (resolverCall_run _ _ _ r2 _ R2);
        apply (featuresAndSegments_miss _ _ _ _ _ En); exact Miss].
    cbv zeta. eexists _, _, _. split; [reflexivity|].
    cbn [trace pid nextPromise elapse settle snd]. subst s1.
    cbn [trace nextPromise].
    rewrite !featureReads_app, !segmentReads_app. cbn.
    split; [split; [|tauto]|].
    { intros E. apply (f_equal pid) in E. cbn in E. lia. }
    split; [split; [lia|tauto]|].
    intros _. repeat split; lia.
Qed.

(** C8: a resolution starts both store reads before either is awaited; it
    is fulfilled, with the pair of both answers, exactly when both stores
    answer, and rejected when either fails.  A caller that awaits a failed
    resolution gets the error and no value, and the cache keeps no entry for
    the key; a successful one leaves the entry with its timer armed. *)
Theorem resolution_all_or_nothing {T} (config : ClientFeatureCaching)
    (svc : Services) (q : IFeatureToggleQuery) (key : string) (s : State T) :
  cache s !! key = None ->
  let all := Promise_all (getClientFeatures svc q) (getActive svc)
                         (getActiveSettlesFirst svc) in
  let run := (p <- featuresAndSegments config svc q key ;; awaitPromise p) in
  (exists p s1, resolveFeaturesAndSegments svc q s = (Returned p, s1)
      /\ outcome p = all
      /\ trace s1 = trace s ++ [EvGetClientFeatures q; EvGetActive])
  /\ (forall f g, all = Fulfilled (f, g) <->
        getClientFeatures svc q = Fulfilled f /\ getActive svc = Fulfilled g)
  /\ ((exists e, getClientFeatures svc q = Rejected e)
      \/ (exists e, getActive svc = Rejected e) <-> exists e, all = Rejected e)
  /\ (forall f g, all = Fulfilled (f, g) ->
        fst (run s) = Returned (f, g)
        /\ (enabled config = true ->
            cache (snd (run s)) !! key
            = Some (mkEntry (mkPromise (nextPromise s) (Fulfilled (f, g)))
                            (maxAge config) (Some (clock s)))))
  /\ (forall e, all = Rejected e ->
        fst (run s) = Thrown e /\ cache (snd (run s)) !! key = None)
  /\ featureReads (trace (snd (run s))) = S (featureReads (trace s))
  /\ segmentReads (trace (snd (run s))) = S (segmentReads (trace s)).
Proof.
  intros Miss all run.
  split; [rewrite resolveFeaturesAndSegments_run; eauto|].
  split.
  { intros f g. subst all. unfold Promise_all.
    destruct (getClientFeatures svc q), (getActive svc); split;
      try (intros [E1 E2]); try intros E; try discriminate;
      try (injection E as -> ->); try (injection E1 as ->; injection E2 as ->);
      auto. }
  split.
  { subst all. unfold Promise_all.
    destruct (getClientFeatures svc q), (getActive svc); split;
      try (intros [[e' E]|[e' E]]); try (intros [e' E]);
      try discriminate; eauto. }
  assert (Run : run s =
    (match all with Fulfilled v => Returned v | Rejected e => Thrown e end,
     snd (settle (mkPromise (nextPromise s) all)
            (snd (featuresAndSegments config svc q key s))))).
  { subst run. destruct (enabled config) eqn:En.
    - erewrite bind_returned; [|apply (featuresAndSegments_miss _ _ _ _ _ En Miss)].
      rewrite (featuresAndSegments_miss _ _ _ _ _ En Miss). cbv zeta.
      now rewrite awaitPromise_run.
    - erewrite bind_returned; [|apply (featuresAndSegments_direct _ _ _ _ _ En)].
      rewrite (featuresAndSegments_direct _ _ _ _ _ En).
      now rewrite awaitPromise_run. }
  rewrite Run. cbn [fst snd].
  assert (Lk : cache (snd (settle (mkPromise (nextPromise s) all)
                 (snd (featuresAndSegments config svc q key s)))) !! key =
               if enabled config then
                 match all with
                 | Fulfilled v =>
                     Some (mkEntry (mkPromise (nextPromise s) all)
                                   (maxAge config) (Some (clock s)))
                 | Rejected _ => None
                 end
               else None).
  { rewrite settle_lookup. destruct (enabled config) eqn:En.
    - rewrite (featuresAndSegments_miss _ _ _ _ _ En Miss). cbv zeta.
      cbn [snd cache clock]. rewrite lookup_insert_eq.
      cbn [mbind option_bind]. unfold settleEntry.
      cbn [promise pid armedAt outcome ttl].
      rewrite Nat.eqb_refl. fold all. destruct all; reflexivity.
    - rewrite (featuresAndSegments_direct _ _ _ _ _ En).
      cbn [snd cache]. now rewrite Miss. }
  split.
  { intros f g E. rewrite Lk, E. split; [reflexivity|]. now intros ->. }
  split.
  { intros e E. rewrite Lk, E. split; [reflexivity|].
    now destruct (enabled config). }
  destruct (enabled config) eqn:En.
  - rewrite (featuresAndSegments_miss _ _ _ _ _ En Miss). cbv zeta.
    cbn [snd settle trace]. rewrite featureReads_app, segmentReads_app. cbn.
    split; lia.
  - rewrite (featuresAndSegments_direct _ _ _ _ _ En).
    cbn [snd settle trace]. rewrite featureReads_app, segmentReads_app. cbn.
    split; lia.
Qed.

End Properties.

(* ================================================================== *)
(** * 6a. Further properties of the controller                         *)
(* ================================================================== *)

Section MoreProperties.
Context `{Imports} {FeatureRest ISegment : Type}.

Local Abbreviation Feature := (@FeatureConfigurationClient FeatureRest).
Local Abbreviation Services := (@IUnleashServices FeatureRest ISegment).
Local Abbreviation Resolved := (@Resolution FeatureRest ISegment).
Local Abbreviation Entry := (@CacheEntry FeatureRest ISegment).
Local Abbreviation State := (@St FeatureRest ISegment).
Local Abbreviation Handler := (@M FeatureRest ISegment).
Local Abbreviation Payload := (@ClientFeaturesSchema FeatureRest ISegment).

(** ** The list endpoint beyond the gate *)

(** The list endpoint from the point where the resolver has handed out its
    promise [p]. *)
Lemma getAll_after_call (config : ClientFeatureCaching) (svc : Services)
    (req : IAuthRequest) (q : IFeatureToggleQuery) (rev : Z)
    (s s2 : State Payload) (p : Promise Resolved) :
  resolveQuery svc req = Fulfilled q ->
  getMaxRevisionId svc = Fulfilled rev ->
  let fresh := etagOf (hashSum q) rev in
  headers req !! "if-none-match" <> Some fresh ->
  featuresAndSegments config svc q fresh
    (mkSt (setHeader "ETag" fresh (res s)) (cache s) (nextPromise s)
          (clock s) (trace s ++ [EvGetMaxRevisionId]))
  = (Returned p, s2) ->
  getAll config svc req s =
  match outcome p with
  | Fulfilled fs =>
      (Returned tt,
       mkSt (respondWithValidation 200 (res s2)
               (payloadOf svc req q (mkMeta rev fresh (hashSum q)) fs))
            (cache (snd (settle p s2))) (nextPromise s2) (clock s2) (trace s2))
  | Rejected e => (Thrown e, snd (settle p s2))
  end.
Proof.
  intros Eq Er fresh Nh Ecall.
  rewrite (getAll_after_meta config svc req q rev s Eq Er). cbv zeta.
  fold fresh.
  destruct (decide (Some fresh = headers req !! "if-none-match")) as [E|_];
    [now contradiction Nh|].
  erewrite bind_returned; [|exact Ecall].
  unfold payloadOf.
  destruct (outcome p) as [fs|e] eqn:Eo.
  - erewrite bind_returned; [|rewrite awaitPromise_run, Eo; reflexivity].
    destruct (requestSupportsSpec svc req "segments"); reflexivity.
  - erewrite bind_thrown; [|rewrite awaitPromise_run, Eo; reflexivity].
    reflexivity.
Qed.

(** X1: a request whose validator does not match and whose resolution is
    not in the cache (or with caching disabled) is answered 200 with the
    stores' answers, the normalised query and the meta data whose etag is the
    ETag header; the segments are a field of the payload exactly for clients
    with the segments capability; with caching enabled the answer is then in
    the cache under the validator, its timer armed. *)
Theorem getAll_fresh_payload (config : ClientFeatureCaching) (svc : Services)
    (req : IAuthRequest) (q : IFeatureToggleQuery) (rev : Z)
    (f : list Feature) (g : list ISegment) (s : State Payload) :
  resolveQuery svc req = Fulfilled q ->
  getMaxRevisionId svc = Fulfilled rev ->
  let fresh := etagOf (hashSum q) rev in
  headers req !! "if-none-match" <> Some fresh ->
  enabled config = false \/ cache s !! fresh = None ->
  getClientFeatures svc q = Fulfilled f ->
  getActive svc = Fulfilled g ->
  let s' := snd (getAll config svc req s) in
  fst (getAll config svc req s) = Returned tt
  /\ res s' = respondWithValidation 200 (setHeader "ETag" fresh (res s))
                (mkPayload version f q
                   (if requestSupportsSpec svc req "segments" then Some g
                    else None)
                   (mkMeta rev fresh (hashSum q)))
  /\ trace s' = trace s ++ [EvGetMaxRevisionId; EvFeaturesAndSegments q fresh;
                            EvGetClientFeatures q; EvGetActive]
  /\ (enabled config = true ->
      cache s' !! fresh
      = Some (mkEntry (mkPromise (nextPromise s) (Fulfilled (f, g)))
                      (maxAge config) (Some (clock s)))).
Proof.
  intros Eq Er fresh Nh Hmiss Ef Eg s'. subst s'.
  set (s1 := mkSt (setHeader "ETag" fresh (res s)) (cache s) (nextPromise s)
                  (clock s) (trace s ++ [EvGetMaxRevisionId])).
  assert (Hall : Promise_all (getClientFeatures svc q) (getActive svc)
                   (getActiveSettlesFirst svc) = Fulfilled (f, g))
    by (rewrite Ef, Eg; reflexivity).
  destruct (enabled config) eqn:En.
  - destruct Hmiss as [?|Miss]; [discriminate|].
    pose proof (featuresAndSegments_miss config svc q fresh s1 En Miss) as Ec.
    cbv zeta in Ec. rewrite Hall in Ec.
    rewrite (getAll_after_call config svc req q rev s _ _ Eq Er Nh Ec).
    cbn [outcome fst snd res trace cache nextPromise clock settle s1].
    split; [reflexivity|]. split; [reflexivity|].
    split; [now rewrite <- app_assoc|]. intros _.
    rewrite lookup_omap, lookup_insert_eq. cbn [mbind option_bind].
    unfold settleEntry. cbn [promise pid armedAt outcome ttl].
    now rewrite Nat.eqb_refl.
  - pose proof (featuresAndSegments_direct config svc q fresh s1 En) as Ec.
    rewrite Hall in Ec.
    rewrite (getAll_after_call config svc req q rev s _ _ Eq Er Nh Ec).
    cbn [outcome fst snd res trace cache nextPromise clock settle s1].
    split; [reflexivity|]. split; [reflexivity|].
    split; [now rewrite <- app_assoc|]. discriminate.
Qed.

(** X2: while an answered entry sits in the cache under the validator of a
    request, the request is answered 200 from that entry: no store is read,
    whatever the stores would answer now. *)
Theorem getAll_serves_cached (config : ClientFeatureCaching) (svc : Services)
    (req : IAuthRequest) (q : IFeatureToggleQuery) (rev : Z)
    (e : Entry) (fs : Resolved) (s : State Payload) :
  resolveQuery svc req = Fulfilled q ->
  getMaxRevisionId svc = Fulfilled rev ->
  let fresh := etagOf (hashSum q) rev in
  headers req !! "if-none-match" <> Some fresh ->
  enabled config = true ->
  cache s !! fresh = Some e ->
  outcome (promise e) = Fulfilled fs ->
  let s' := snd (getAll config svc req s) in
  fst (getAll config svc req s) = Returned tt
  /\ res s' = respondWithValidation 200 (setHeader "ETag" fresh (res s))
                (mkPayload version (fst fs) q
                   (if requestSupportsSpec svc req "segments"
                    then Some (snd fs) else None)
                   (mkMeta rev fresh (hashSum q)))
  /\ trace s' = trace s ++ [EvGetMaxRevisionId; EvFeaturesAndSegments q fresh]
  /\ nextPromise s' = nextPromise s.
Proof.
  intros Eq Er fresh Nh En Hit Eo s'. subst s'.
  set (s1 := mkSt (setHeader "ETag" fresh (res s)) (cache s) (nextPromise s)
                  (clock s) (trace s ++ [EvGetMaxRevisionId])).
  pose proof (featuresAndSegments_hit config svc q fresh s1 e En Hit) as Ec.
  rewrite (getAll_after_call config svc req q rev s _ _ Eq Er Nh Ec), Eo.
  cbn [fst snd res trace cache nextPromise clock s1].
  repeat split. now rewrite <- app_assoc.
Qed.

(** X3: a query that fails validation ends the list endpoint at once: the
    error is thrown and nothing was read, set or stored; a failing revision
    service ends it after that one read, before any header is set. *)
Theorem getAll_early_failure (config : ClientFeatureCaching) (svc : Services)
    (req : IAuthRequest) (s : State Payload) :
  match resolveQuery svc req with
  | Rejected e => getAll config svc req s = (Thrown e, s)
  | Fulfilled q =>
      forall e, getMaxRevisionId svc = Rejected e ->
        getAll config svc req s
        = (Thrown e, mkSt (res s) (cache s) (nextPromise s) (clock s)
                          (trace s ++ [EvGetMaxRevisionId]))
  end.
Proof.
  destruct (resolveQuery svc req) as [q|e] eqn:Eq.
  - intros e Er. unfold getAll.
    erewrite bind_returned; [|rewrite Eq; reflexivity].
    erewrite bind_thrown; [|rewrite calculateMeta_run, Er; reflexivity].
    reflexivity.
  - unfold getAll. erewrite bind_thrown; [|rewrite Eq; reflexivity].
    reflexivity.
Qed.

(** ** The cache invariant *)

(** The single-feature endpoint touches neither the cache nor the promise
    counter, and the response only when it answers. *)
Lemma getFeatureToggle_frame (svc : Services) (req : IAuthRequest)
    (s : State Feature) :
  cache (snd (getFeatureToggle svc req s)) = cache s
  /\ nextPromise (snd (getFeatureToggle svc req s)) = nextPromise s
  /\ (forall e, fst (getFeatureToggle svc req s) = Thrown e ->
        res (snd (getFeatureToggle svc req s)) = res s).
Proof.
  destruct (resolveQuery svc req) as [fq|e] eqn:Eq.
  - destruct (getClientFeatures svc
                (withNamePrefix fq (params_featureName req))) as [ts|e] eqn:Et.
    + rewrite (getFeatureToggle_after_read svc req fq ts s Eq Et). cbv zeta.
      destruct (List.find _ ts); cbn; repeat split; auto. discriminate.
    + unfold getFeatureToggle.
      erewrite bind_returned; [|rewrite Eq; reflexivity].
      erewrite bind_returned; [|reflexivity].
      erewrite bind_thrown; [|rewrite Et; reflexivity].
      cbn. repeat split; auto.
  - unfold getFeatureToggle.
    erewrite bind_thrown; [|rewrite Eq; reflexivity].
    cbn. repeat split; auto.
Qed.

Lemma cacheOk_frame {T U} (s : State T) (s' : State U) :
  cache s' = cache s -> (nextPromise s <= nextPromise s')%nat ->
  cacheOk s -> cacheOk s'.
Proof.
  intros Ec En Ok k e L. rewrite Ec in L. destruct (Ok k e L) as [Hp Ha].
  split; [lia|exact Ha].
Qed.

Lemma settle_keeps {T} (p : Promise Resolved) (s : State T) :
  cacheOk s -> cacheOk (snd (settle p s)).
Proof.
  intros Ok k e L. rewrite settle_lookup in L.
  destruct (cache s !! k) as [e0|] eqn:L0; [|discriminate].
  destruct (Ok k e0 L0) as [Hp Ha]. cbn [mbind option_bind] in L.
  unfold settleEntry in L.
  destruct (Nat.eqb (pid (promise e0)) (pid p)).
  - destruct (armedAt e0) as [t|] eqn:Ea.
    + injection L as <-. split; [exact Hp|]. now rewrite Ea.
    + destruct (outcome (promise e0)) as [v|err] eqn:Eo; [|discriminate].
      injection L as <-. cbn [promise armedAt]. split; [exact Hp|]. eauto.
  - injection L as <-. split; assumption.
Qed.

Lemma elapse_keeps {T} (dt : Z) (s : State T) :
  cacheOk s -> cacheOk (snd (elapse dt s)).
Proof.
  intros Ok k e L. rewrite elapse_lookup in L.
  destruct (cache s !! k) as [e0|] eqn:L0; [|discriminate].
  cbn [mbind option_bind] in L.
  destruct (expired (clock s + dt) e0); [discriminate|].
  injection L as <-. exact (Ok k e0 L0).
Qed.

Lemma featuresAndSegments_keeps {T} (config : ClientFeatureCaching)
    (svc : Services) (q : IFeatureToggleQuery) (key : string) (s : State T) :
  cacheOk s -> cacheOk (snd (featuresAndSegments config svc q key s)).
Proof.
  intros Ok. destruct (enabled config) eqn:En.
  - destruct (cache s !! key) as [e|] eqn:L.
    + rewrite (featuresAndSegments_hit _ _ _ _ _ e En L).
      now apply (cacheOk_frame s).
    + rewrite (featuresAndSegments_miss _ _ _ _ _ En L). cbv zeta.
      intros k e0 L0. cbn [snd cache nextPromise] in *.
      rewrite lookup_insert in L0. destruct (decide (key = k)).
      * injection L0 as <-. cbn [promise pid armedAt]. split; [lia|discriminate].
      * destruct (Ok k e0 L0) as [Hp Ha]. split; [lia|exact Ha].
  - rewrite (featuresAndSegments_direct _ _ _ _ _ En).
    apply (cacheOk_frame s); [reflexivity|cbn; lia|exact Ok].
Qed.

(** X4: the handlers keep the cache invariant: after a request to either
    endpoint, and after any lapse of time, every cache entry still holds a
    promise created earlier, and every entry with an armed timer holds a
    fulfilled one. *)
Theorem handlers_keep_cacheOk (config : ClientFeatureCaching) (svc : Services)
    (req : IAuthRequest) :
  (forall s : State Payload,
     cacheOk s -> cacheOk (snd (getAll config svc req s)))
  /\ (forall s : State Feature,
        cacheOk s -> cacheOk (snd (getFeatureToggle svc req s)))
  /\ (forall (T : Type) (dt : Z) (s : State T),
        cacheOk s -> cacheOk (snd (elapse dt s)))
  /\ (forall (T : Type) (r : Response T) (n : nat) (now : Z) (tr : list Event),
        cacheOk (mkSt (FeatureRest := FeatureRest) (ISegment := ISegment)
                      r ∅ n now tr)).
Proof.
  split; [|split; [|split]].
  - intros s Ok.
    destruct (resolveQuery svc req) as [q|e] eqn:Eq.
    2:{ unfold getAll. erewrite bind_thrown; [|rewrite Eq; reflexivity].
        exact Ok. }
    destruct (getMaxRevisionId svc) as [rev|e] eqn:Er.
    2:{ unfold getAll. erewrite bind_returned; [|rewrite Eq; reflexivity].
        erewrite bind_thrown; [|rewrite calculateMeta_run, Er; reflexivity].
        now apply (cacheOk_frame s). }
    set (fresh := etagOf (hashSum q) rev).
    destruct (decide (Some fresh = headers req !! "if-none-match")) as [E|N].
    + rewrite (getAll_after_meta config svc req q rev s Eq Er). cbv zeta.
      fold fresh. rewrite decide_True by exact E.
      now apply (cacheOk_frame s).
    + set (s1 := mkSt (setHeader "ETag" fresh (res s)) (cache s)
                      (nextPromise s) (clock s)
                      (trace s ++ [EvGetMaxRevisionId])).
      assert (Ok1 : cacheOk s1) by now apply (cacheOk_frame s).
      pose proof (featuresAndSegments_keeps config svc q fresh s1 Ok1) as Ok2.
      destruct (featuresAndSegments_returns config svc q fresh s1)
        as (p & s2 & tr & Ec & _ & _).
      rewrite Ec in Ok2. cbn [snd] in Ok2.
      assert (N' : headers req !! "if-none-match" <> Some fresh) by congruence.
      rewrite (getAll_after_call config svc req q rev s s2 p Eq Er N' Ec).
      pose proof (settle_keeps p s2 Ok2) as Ok3.
      destruct (outcome p); [|exact Ok3].
      now apply (cacheOk_frame (snd (settle p s2))).
  - intros s Ok.
    destruct (getFeatureToggle_frame svc req s) as (Ec & En & _).
    apply (cacheOk_frame s); [exact Ec|rewrite En; lia|exact Ok].
  - intros T dt s. apply elapse_keeps.
  - intros T r n now tr k e L. cbn [cache] in L.
    rewrite lookup_empty in L. discriminate.
Qed.

(** X5: with caching enabled, whenever the list endpoint fails after the
    gate (the resolution it started, or the pending one it joined, was
    rejected), the ETag header is already set, the response is otherwise
    untouched, and the cache keeps no entry under the request's validator,
    so that the next request resolves anew. *)
Theorem getAll_failure_not_cached (config : ClientFeatureCaching)
    (svc : Services) (req : IAuthRequest) (q : IFeatureToggleQuery) (rev : Z)
    (err : Error) (s : State Payload) :
  cacheOk s ->
  enabled config = true ->
  resolveQuery svc req = Fulfilled q ->
  getMaxRevisionId svc = Fulfilled rev ->
  let fresh := etagOf (hashSum q) rev in
  headers req !! "if-none-match" <> Some fresh ->
  fst (getAll config svc req s) = Thrown err ->
  res (snd (getAll config svc req s)) = setHeader "ETag" fresh (res s)
  /\ cache (snd (getAll config svc req s)) !! fresh = None.
Proof.
  intros Ok En Eq Er fresh Nh.
  set (s1 := mkSt (setHeader "ETag" fresh (res s)) (cache s) (nextPromise s)
                  (clock s) (trace s ++ [EvGetMaxRevisionId])).
  destruct (cache s !! fresh) as [e0|] eqn:L.
  - pose proof (featuresAndSegments_hit config svc q fresh s1 e0 En L) as Ec.
    rewrite (getAll_after_call config svc req q rev s _ _ Eq Er Nh Ec).
    destruct (outcome (promise e0)) as [fs|e] eqn:Eo; [discriminate|].
    intros _. cbn [fst snd]. split; [reflexivity|].
    rewrite settle_lookup. cbn [cache clock s1]. rewrite L.
    cbn [mbind option_bind]. unfold settleEntry. rewrite Nat.eqb_refl, Eo.
    destruct (armedAt e0) as [t|] eqn:Ea; [|reflexivity].
    destruct (proj2 (Ok fresh e0 L) t Ea) as [v Ev]. congruence.
  - pose proof (featuresAndSegments_miss config svc q fresh s1 En L) as Ec.
    cbv zeta in Ec.
    rewrite (getAll_after_call config svc req q rev s _ _ Eq Er Nh Ec).
    cbn [outcome].
    destruct (Promise_all _ _ _) as [fs|e] eqn:Eo; [discriminate|].
    intros _. cbn [fst snd]. split; [reflexivity|].
    rewrite settle_lookup. cbn [cache clock s1]. rewrite lookup_insert_eq.
    cbn [mbind option_bind]. unfold settleEntry.
    cbn [promise pid armedAt outcome]. now rewrite Nat.eqb_refl.
Qed.

(** ** A client that polls *)

(** The response object after the list endpoint, once the validator is
    known. *)
Lemma getAll_response (config : ClientFeatureCaching) (svc : Services)
    (req : IAuthRequest) (q : IFeatureToggleQuery) (rev : Z)
    (s : State Payload) :
  resolveQuery svc req = Fulfilled q ->
  getMaxRevisionId svc = Fulfilled rev ->
  let fresh := etagOf (hashSum q) rev in
  let r := res (snd (getAll config svc req s)) in
  if decide (Some fresh = headers req !! "if-none-match") then
    r = endResponse (status 304 (setHeader "ETag" fresh (res s)))
  else
    r = setHeader "ETag" fresh (res s)
    \/ exists pl, r = respondWithValidation 200
                        (setHeader "ETag" fresh (res s)) pl.
Proof.
  intros Eq Er fresh r. subst r.
  destruct (decide (Some fresh = headers req !! "if-none-match")) as [E|N].
  - rewrite (getAll_after_meta config svc req q rev s Eq Er). cbv zeta.
    fold fresh. now rewrite decide_True by exact E.
  - set (s1 := mkSt (setHeader "ETag" fresh (res s)) (cache s) (nextPromise s)
                    (clock s) (trace s ++ [EvGetMaxRevisionId])).
    destruct (featuresAndSegments_returns config svc q fresh s1)
      as (p & s2 & tr & Ec & Rc & _).
    assert (N' : headers req !! "if-none-match" <> Some fresh) by congruence.
    rewrite (getAll_after_call config svc req q rev s s2 p Eq Er N' Ec).
    destruct (outcome p); cbn [snd res settle]; rewrite Rc; eauto.
Qed.

(** X6: a client that sends back, as If-None-Match, the ETag header it got
    from an earlier request is answered 304 exactly when the fingerprint of
    its query and the revision are what they were at that request. *)
Theorem etag_round_trip (config : ClientFeatureCaching)
    (svc1 svc2 : Services) (req1 req2 : IAuthRequest)
    (q1 q2 : IFeatureToggleQuery) (r1 r2 : Z) (s1 s2 : State Payload) :
  resolveQuery svc1 req1 = Fulfilled q1 ->
  getMaxRevisionId svc1 = Fulfilled r1 ->
  resolveQuery svc2 req2 = Fulfilled q2 ->
  getMaxRevisionId svc2 = Fulfilled r2 ->
  headers req2 !! "if-none-match"
  = resHeaders (res (snd (getAll config svc1 req1 s1))) !! "ETag" ->
  res s2 = freshResponse ->
  statusCode (res (snd (getAll config svc2 req2 s2))) = 304
  <-> hashSum q1 = hashSum q2 /\ r1 = r2.
Proof.
  intros Eq1 Er1 Eq2 Er2 Esent Efresh.
  assert (Hsent : headers req2 !! "if-none-match"
                  = Some (etagOf (hashSum q1) r1)).
  { rewrite Esent.
    pose proof (getAll_response config svc1 req1 q1 r1 s1 Eq1 Er1) as R.
    cbv zeta in R.
    destruct (decide _); [rewrite R|destruct R as [R|[pl R]]; rewrite R];
      apply lookup_insert_eq. }
  pose proof (getAll_response config svc2 req2 q2 r2 s2 Eq2 Er2) as R.
  cbv zeta in R. rewrite Hsent, Efresh in R.
  destruct (decide _) as [E|N].
  - rewrite R. assert (E' : etagOf (hashSum q2) r2 = etagOf (hashSum q1) r1)
      by congruence.
    apply etagOf_inj in E'. destruct E' as [Eh Ev]. cbn. split; auto.
  - assert (Hne : ~ (hashSum q1 = hashSum q2 /\ r1 = r2))
      by (intros [Eh Ev]; apply N; now rewrite Eh, Ev).
    destruct R as [R|[pl R]]; rewrite R; cbn; split;
      try discriminate; tauto.
Qed.

(** ** More on the query normaliser *)

Ltac raw_fields :=
  cbn [raw_tag raw_project raw_namePrefix raw_environment
       raw_inlineSegmentConstraints] in *.

(** X7: the segment-inlining flag of a normalised query is computed from the
    client's capability alone: it is set exactly for clients without the
    segments capability, and nothing the client sends under that name
    changes the outcome of normalisation. *)
Theorem resolveQuery_inline_computed (svc : Services) (req : IAuthRequest) :
  (forall d, resolveQuery svc req = Fulfilled d ->
     (inlineSegmentConstraints d = Some true
      <-> requestSupportsSpec svc req "segments" = false))
  /\ (forall req', user req' = user req ->
        raw_tag (query req') = raw_tag (query req) ->
        raw_project (query req') = raw_project (query req) ->
        raw_namePrefix (query req') = raw_namePrefix (query req) ->
        raw_environment (query req') = raw_environment (query req) ->
        requestSupportsSpec svc req' "segments"
        = requestSupportsSpec svc req "segments" ->
        resolveQuery svc req' = resolveQuery svc req).
Proof.
  split.
  - intros d. unfold resolveQuery, prepQuery, spread. raw_fields.
    destruct (requestSupportsSpec svc req "segments"); cbn [negb notFlag].
    + destruct (_ && _ && _ && _ && true).
      * intros [= <-]. cbn. split; discriminate.
      * unfold validateAsync. raw_fields.
        destruct (validateArray _ _); [|discriminate].
        destruct (validateArray _ _); [|discriminate].
        destruct (validateString _ _); [|discriminate].
        destruct (validateString _ _); [|discriminate].
        intros [= <-]. cbn. split; discriminate.
    + rewrite andb_false_r. unfold validateAsync. raw_fields.
      destruct (validateArray _ _); [|discriminate].
      destruct (validateArray _ _); [|discriminate].
      destruct (validateString _ _); [|discriminate].
      destruct (validateString _ _); [|discriminate].
      intros [= <-]. cbn. split; reflexivity.
  - intros req' Eu Et Ep En Ee Es. unfold resolveQuery, spread.
    now rewrite Eu, Et, Ep, En, Ee, Es.
Qed.

(** X8: where the caller's identity brings no override (no API user, or an
    API user for all projects, resp. for all environments) the client's own
    project filter, resp. environment, is the one of the normalised query. *)
Theorem resolveQuery_client_filters (svc : Services) (req : IAuthRequest)
    (d : IFeatureToggleQuery) :
  resolveQuery svc req = Fulfilled d ->
  ((user req = OtherUser
    \/ exists ps env, user req = ApiUser ps env /\ isAllProjects ps = true) ->
   (forall l, raw_project (query req) = PArray l -> project d = Some l)
   /\ (forall p, p <> EmptyString -> raw_project (query req) = PString p ->
         project d = Some [p]))
  /\ ((user req = OtherUser \/ exists ps, user req = ApiUser ps ALL) ->
      forall e, e <> EmptyString -> raw_environment (query req) = PString e ->
        environment d = Some e).
Proof.
  intros E. unfold resolveQuery in E. split.
  - intros Hu.
    assert (Ho : override_project (overrideOf (user req)) = None).
    { destruct Hu as [->|(ps & env & -> & Hall)]; [reflexivity|].
      cbn. now rewrite Hall. }
    split.
    + intros l El. apply (prepQuery_keeps_lists _ _ E).
      unfold spread. raw_fields. now rewrite Ho.
    + intros p Hp El.
      rewrite prepQuery_validated in E
        by (unfold spread; raw_fields; rewrite Ho, El, (truthy_nonempty p Hp);
            now rewrite !orb_true_r).
      unfold spread, validateAsync in E. raw_fields.
      rewrite Ho, El, (paramToArray_scalar p Hp) in E.
      destruct (validateArray _ _); [|discriminate].
      cbn [validateArray] in E.
      destruct (forallb _ [p]); [|discriminate].
      destruct (validateString _ _); [|discriminate].
      destruct (validateString _ _); [|discriminate].
      injection E as <-. reflexivity.
  - intros Hu e He El.
    assert (Ho : override_environment (overrideOf (user req)) = None).
    { destruct Hu as [->|(ps & ->)]; [reflexivity|].
      cbn. now rewrite String.eqb_refl. }
    rewrite prepQuery_validated in E
      by (unfold spread; raw_fields; rewrite Ho, El, (truthy_nonempty e He);
          now rewrite !orb_true_r).
    unfold spread, validateAsync in E. raw_fields. rewrite Ho, El in E.
    destruct (validateArray _ _); [|discriminate].
    destruct (validateArray _ _); [|discriminate].
    destruct (validateString _ _); [|discriminate].
    cbn [validateString] in E.
    destruct (environmentSyntax querySchema e); [|discriminate].
    injection E as <-. reflexivity.
Qed.

(** X9: [paramToArray] is idempotent and keeps truthiness; the only string
    it returns as such is the empty one. *)
Theorem paramToArray_idempotent (p : QueryParam) :
  paramToArray (paramToArray p) = paramToArray p
  /\ truthy (paramToArray p) = truthy p
  /\ (forall s, paramToArray p = PString s -> s = EmptyString).
Proof.
  destruct p as [|s|l]; try (repeat split; discriminate || reflexivity).
  destruct (String.eqb_spec s EmptyString) as [->|Hs].
  - repeat split. now intros s [= <-].
  - rewrite (paramToArray_scalar s Hs). repeat split; try discriminate.
    now rewrite truthy_nonempty.
Qed.

(** ** Splitting tag filters *)

Lemma split_nonempty (sep : ascii) (s : string) : split sep s <> [].
Proof.
  destruct s as [|c rest]; cbn; [discriminate|].
  destruct (Ascii.eqb c sep); [discriminate|].
  destruct (split sep rest); discriminate.
Qed.

(** Joining the pieces with the separator gives the string back. *)
Lemma split_concat (sep : ascii) (s : string) :
  String.concat (String sep EmptyString) (split sep s) = s.
Proof.
  induction s as [|c rest IH]; [reflexivity|]. cbn [split].
  destruct (Ascii.eqb_spec c sep) as [->|Hc].
  - pose proof (split_nonempty sep rest) as Hn.
    destruct (split sep rest) as [|w ws] eqn:Es; [contradiction|].
    cbn [String.concat] in *. now rewrite IH.
  - pose proof (split_nonempty sep rest) as Hn.
    destruct (split sep rest) as [|w ws] eqn:Es; [contradiction|].
    destruct ws as [|w2 ws]; cbn [String.concat] in IH |- *.
    + now rewrite IH.
    + rewrite <- IH. reflexivity.
Qed.

(** No piece holds the separator. *)
Lemma split_pieces (sep : ascii) (s : string) :
  Forall (fun w => occurs sep w = false) (split sep s).
Proof.
  induction s as [|c rest IH]; cbn [split]; [repeat constructor|].
  destruct (Ascii.eqb c sep) eqn:Ec; [constructor; [reflexivity|exact IH]|].
  destruct (split sep rest) as [|w ws]; [repeat constructor; cbn; now rewrite Ec|].
  apply Forall_cons_iff in IH as [Hw Hws].
  constructor; [cbn; now rewrite Ec, Hw|exact Hws].
Qed.

(** X10: the tag filters of a normalised query are the client's tag strings
    cut at every colon: joining the pieces of each with colons gives the
    client's list back, in order, and no piece holds a colon; so two
    different tag lists never normalise to the same tag filter. *)
Theorem prepQuery_tag_round_trip (r : RawQuery) (d : IFeatureToggleQuery)
    (l : list string) :
  prepQuery r = Fulfilled d ->
  raw_tag r = PArray l ->
  exists pieces,
    tag d = Some pieces
    /\ map (String.concat ":") pieces = l
    /\ Forall (fun ws => ws <> [] /\ Forall (fun w => occurs colon w = false) ws)
              pieces
    /\ Forall (fun t => tagSyntax querySchema t = true) l.
Proof.
  intros E El.
  destruct (prepQuery_keeps_lists r d E) as [_ Ht].
  exists (map (split colon) l). split; [now apply Ht|]. split; [|split].
  - rewrite map_map. rewrite <- (map_id l) at 2. apply map_ext.
    intros t. apply split_concat.
  - apply Forall_map. apply Forall_forall. intros t _.
    split; [apply split_nonempty|apply split_pieces].
  - rewrite prepQuery_validated in E by (rewrite El; reflexivity).
    unfold validateAsync in E. raw_fields. rewrite El in E.
    cbn [paramToArray truthy negb validateArray] in E.
    destruct (forallb (tagSyntax querySchema) l) eqn:Ef; [|discriminate].
    apply Forall_forall. intros t Hin.
    apply (proj1 (forallb_forall _ _) Ef t). now apply list_elem_of_In.
Qed.

(** ** The resolver without the cache, and after expiry *)

(** X11: with caching disabled every resolver call runs the resolver: [n]
    calls read each store [n] times, hand out [n] promises of their own,
    each settling as the stores answer that call, and leave the cache as it
    was. *)
Theorem disabled_cache_reads_every_time {T} (config : ClientFeatureCaching)
    (calls : list (Services * IFeatureToggleQuery)) (s : State T) :
  enabled config = false ->
  Forall (fun c => exists r, getMaxRevisionId (fst c) = Fulfilled r) calls ->
  exists ps s',
    concurrentCalls config calls s = (Returned ps, s')
    /\ map pid ps = seq (nextPromise s) (length calls)
    /\ map outcome ps
       = map (fun c => Promise_all (getClientFeatures (fst c) (snd c))
                         (getActive (fst c)) (getActiveSettlesFirst (fst c)))
             calls
    /\ featureReads (trace s') = (featureReads (trace s) + length calls)%nat
    /\ segmentReads (trace s') = (segmentReads (trace s) + length calls)%nat
    /\ cache s' = cache s
    /\ nextPromise s' = (nextPromise s + length calls)%nat.
Proof.
  intros En Hall. revert s.
  induction Hall as [|[svc q] more [r Hr] Hmore IH]; intros s.
  - exists [], s. cbn. repeat split; lia.
  - cbn [fst] in Hr. cbn [concurrentCalls].
    erewrite bind_returned;
      [|rewrite (resolverCall_run _ _ _ r _ Hr);
        apply (featuresAndSegments_direct _ _ _ _ _ En)].
    match goal with
    | |- context [bind (concurrentCalls config more) _ ?st] => set (s1 := st)
    end.
    destruct (IH s1) as (ps & s' & Erun & Hp & Ho & Hf & Hs & Hc & Hn).
    erewrite bind_returned; [|exact Erun].
    eexists _, s'. split; [reflexivity|].
    cbn [map length seq pid outcome fst snd]. rewrite Hp, Ho, Hf, Hs, Hc, Hn.
    subst s1. cbn [nextPromise trace cache].
    rewrite !featureReads_app, !segmentReads_app. cbn.
    repeat split; lia.
Qed.

(** X12: with caching enabled and a positive time-to-live, a call made when
    the time-to-live has passed since the first call was answered finds no
    entry, although fingerprint and revision are unchanged: it resolves anew
    and settles as the stores answer then. *)
Theorem ttl_expiry_reads_again {T} (config : ClientFeatureCaching)
    (svc1 svc2 : Services) (q1 q2 : IFeatureToggleQuery) (r dt : Z)
    (v : Resolved) (s : State T) :
  enabled config = true ->
  0 < maxAge config <= dt ->
  getMaxRevisionId svc1 = Fulfilled r ->
  getMaxRevisionId svc2 = Fulfilled r ->
  hashSum q1 = hashSum q2 ->
  cache s !! etagOf (hashSum q1) r = None ->
  Promise_all (getClientFeatures svc1 q1) (getActive svc1)
              (getActiveSettlesFirst svc1) = Fulfilled v ->
  exists p1 p2 s',
    twoCalls config svc1 q1 dt svc2 q2 s = (Returned (p1, p2), s')
    /\ pid p2 <> pid p1
    /\ outcome p2 = Promise_all (getClientFeatures svc2 q2) (getActive svc2)
                                (getActiveSettlesFirst svc2)
    /\ featureReads (trace s') = S (S (featureReads (trace s)))
    /\ segmentReads (trace s') = S (S (segmentReads (trace s)))
    /\ cache s' !! etagOf (hashSum q1) r = Some (mkEntry p2 (maxAge config) None).
Proof.
  intros En Hdt R1 R2 Eh M1 Ok. unfold twoCalls.
  erewrite bind_returned;
    [|rewrite (resolverCall_run _ _ _ r _ R1);
      apply (featuresAndSegments_miss _ _ _ _ _ En); exact M1].
  cbv zeta. cbn [nextPromise res cache clock trace]. rewrite Ok.
  set (k := etagOf (hashSum q1) r) in *.
  set (p1 := mkPromise (nextPromise s) (Fulfilled v)).
  set (s1 := mkSt _ _ _ _ _).
  erewrite bind_returned; [|rewrite awaitPromise_run; reflexivity].
  set (s2 := snd (settle p1 s1)).
  erewrite bind_returned; [|apply elapse_frame].
  set (s3 := snd (elapse dt s2)).
  assert (Miss : cache s3 !! k = None).
  { subst s3. rewrite elapse_lookup. subst s2. rewrite settle_lookup.
    subst s1. cbn [cache clock snd settle]. rewrite lookup_insert_eq.
    cbn [mbind option_bind]. unfold settleEntry.
    cbn [promise pid armedAt outcome ttl p1]. rewrite Nat.eqb_refl. cbn.
    destruct (Z.leb_spec (clock s + maxAge config) (clock s + dt));
      [reflexivity|lia]. }
  erewrite bind_returned;
    [|rewrite (resolverCall_run _ _ _ r _ R2), <- Eh;
      apply (featuresAndSegments_miss _ _ _ _ _ En); exact Miss].
  cbv zeta. eexists _, _, _. split; [reflexivity|].
  cbn [pid outcome trace cache nextPromise elapse settle snd]. subst s1.
  cbn [trace nextPromise]. fold k. rewrite lookup_insert_eq.
  rewrite !featureReads_app, !segmentReads_app. cbn.
  repeat split; lia.
Qed.

(** ** The single-feature endpoint when it fails *)

(** X13: whenever the single-feature endpoint throws, the response object
    and the cache are as they were, and the error is the validation error,
    the feature store's own error, or the not-found error for a store answer
    without the requested name. *)
Theorem getFeatureToggle_failure (svc : Services) (req : IAuthRequest)
    (err : Error) (s : State Feature) :
  fst (getFeatureToggle svc req s) = Thrown err ->
  res (snd (getFeatureToggle svc req s)) = res s
  /\ cache (snd (getFeatureToggle svc req s)) = cache s
  /\ (resolveQuery svc req = Rejected err
      \/ exists fq, resolveQuery svc req = Fulfilled fq
           /\ (getClientFeatures svc
                 (withNamePrefix fq (params_featureName req)) = Rejected err
               \/ exists ts,
                    getClientFeatures svc
                      (withNamePrefix fq (params_featureName req))
                    = Fulfilled ts
                    /\ (forall t, In t ts -> name t <> params_featureName req)
                    /\ err = NotFoundError ("Could not find feature toggle "
                                            +:+ params_featureName req))).
Proof.
  intros Et.
  destruct (getFeatureToggle_frame svc req s) as (Ec & _ & Er).
  split; [now apply (Er err)|]. split; [exact Ec|].
  destruct (resolveQuery svc req) as [fq|e] eqn:Eq.
  - right. exists fq. split; [reflexivity|].
    destruct (getClientFeatures svc
                (withNamePrefix fq (params_featureName req))) as [ts|e] eqn:Es.
    + right. exists ts. split; [reflexivity|].
      rewrite (getFeatureToggle_after_read svc req fq ts s Eq Es) in Et.
      cbv zeta in Et.
      destruct (List.find _ ts) as [t|] eqn:F; [discriminate|].
      injection Et as <-. split; [|reflexivity].
      intros t Hin Hn. pose proof (find_none _ _ F t Hin) as N.
      cbv beta in N. rewrite Hn, String.eqb_refl in N. discriminate.
    + left. unfold getFeatureToggle in Et.
      erewrite bind_returned in Et; [|rewrite Eq; reflexivity].
      erewrite bind_returned in Et; [|reflexivity].
      erewrite bind_thrown in Et; [|rewrite Es; reflexivity].
      now injection Et as <-.
  - left. unfold getFeatureToggle in Et.
    erewrite bind_thrown in Et; [|rewrite Eq; reflexivity].
    now injection Et as <-.
Qed.

End MoreProperties.

(* ================================================================== *)
(** * 6b. Properties of the project store's row mappers                *)
(* ================================================================== *)

Section ProjectStoreProperties.
Import ProjectStore.
Context {Col JsNumber : Type}.
Variable Number : Col -> JsNumber.
Variable falsy : JsNumber -> bool.
Variable zero : JsNumber.

(** X14: [mapRow] throws the not-found error exactly for a missing row; for
    a row it returns a project whose health is never 0 (a stored 0 or NULL
    is reported as 100, any other value as it is), whose update time falls
    back to the current time and whose change-request flag falls back to
    false; id, name, description and creation time are the row's. *)
Theorem mapRow_defaults (now : Z) (row : option ProjectRow) :
  (mapRow now row = Thrown (NotFoundError "No project found") <-> row = None)
  /\ (forall r, row = Some r ->
        exists p, mapRow now row = Returned p
          /\ health p <> 0
          /\ (forall h, row_health r = Some h -> h <> 0 -> health p = h)
          /\ (row_health r = None \/ row_health r = Some 0 -> health p = 100)
          /\ updatedAt p = default now (row_updated_at r)
          /\ changeRequestsEnabled p
             = default false (row_change_request_enabled r)
          /\ project_id p = row_id r /\ project_name p = row_name r
          /\ project_description p = row_description r
          /\ createdAt p = row_created_at r).
Proof.
  split.
  - destruct row; cbn; split; congruence.
  - intros r ->. eexists. split; [reflexivity|]. cbn.
    unfold numberOr.
    destruct (row_health r) as [h|] eqn:Eh.
    + destruct (Z.eqb_spec h 0) as [->|Hh].
      * repeat split; try lia; try (destruct (row_updated_at r); reflexivity);
          try (destruct (row_change_request_enabled r); reflexivity).
        intros h [= <-] Hn. contradiction.
      * repeat split; try lia; try (destruct (row_updated_at r); reflexivity);
          try (destruct (row_change_request_enabled r); reflexivity).
        -- intros h' [= <-] _. reflexivity.
        -- intros [E|E]; congruence.
    + repeat split; try lia; try (destruct (row_updated_at r); reflexivity);
        try (destruct (row_change_request_enabled r); reflexivity).
      intros h E. discriminate.
Qed.

Lemma newMap_absent (pairs : list (string * JsNumber))
    (m : gmap string JsNumber) (k : string) :
  (forall kv, In kv pairs -> fst kv <> k) ->
  fold_left (fun m kv => <[fst kv := snd kv]> m) pairs m !! k = m !! k.
Proof.
  revert m. induction pairs as [|kv pairs IH]; intros m Hno; [reflexivity|].
  cbn [fold_left]. rewrite IH by (intros kv' Hin; apply Hno; now right).
  apply lookup_insert_ne. apply Hno. now left.
Qed.

Lemma newMap_last (before after : list (string * JsNumber))
    (k : string) (v : JsNumber) :
  (forall kv, In kv after -> fst kv <> k) ->
  newMap (before ++ (k, v) :: after) !! k = Some v.
Proof.
  intros Hno. unfold newMap. rewrite fold_left_app. cbn [fold_left fst snd].
  rewrite newMap_absent by exact Hno. apply lookup_insert_eq.
Qed.

(** X15: [getProjectsWithCounts] returns one project per row of the first
    query, in the same order.  The member count of each comes from the
    member-count rows alone: it is the converted count of the last such row
    for the project's id, and it is undefined, not the 0 that
    [mapProjectWithCountRow] puts there, when there is no such row. *)
Theorem getProjectsWithCounts_memberCount (rows : list (@CountRow Col))
    (members : list (@IProjectMembersCount Col)) :
  let out := getProjectsWithCounts Number falsy zero rows members in
  map wc_id out = map count_id rows
  /\ map featureCount out
     = map (fun r => numberOrZero Number falsy zero (number_of_features r)) rows
  /\ (forall p, In p out ->
        (forall c, In c members -> members_project c <> wc_id p) ->
        memberCount p = None)
  /\ (forall p before c after, In p out ->
        members = before ++ c :: after ->
        (forall c', In c' after -> members_project c' <> members_project c) ->
        members_project c = wc_id p ->
        memberCount p = Some (Number (members_count c))).
Proof.
  intros out. subst out. unfold getProjectsWithCounts.
  split; [rewrite !map_map; reflexivity|].
  split; [rewrite !map_map; reflexivity|].
  split.
  - intros p Hin Hno. rewrite map_map in Hin. apply in_map_iff in Hin.
    destruct Hin as (r & <- & _). cbn [memberCount wc_id] in *.
    unfold newMap. rewrite newMap_absent; [apply lookup_empty|].
    intros kv Hkv. apply in_map_iff in Hkv. destruct Hkv as (c & <- & Hc).
    cbn [fst]. now apply Hno.
  - intros p before c after Hin -> Hlast Hid. rewrite map_map in Hin.
    apply in_map_iff in Hin. destruct Hin as (r & <- & _).
    cbn [memberCount wc_id] in *. rewrite <- Hid.
    rewrite map_app. cbn [map]. apply newMap_last.
    intros kv Hkv. apply in_map_iff in Hkv. destruct Hkv as (c' & <- & Hc').
    cbn [fst]. now apply Hlast.
Qed.

End ProjectStoreProperties.

(* ================================================================== *)
(** * 6c. Properties of the readme table                               *)
(* ================================================================== *)

Section ReadmeProperties.
Import Readmes.

Lemma split_head (sep : ascii) (a b : string) :
  occurs sep a = false ->
  split sep (a +:+ String sep b) = a :: split sep b.
Proof.
  induction a as [|c a IH]; simpl; intros Ha.
  - now rewrite Ascii.eqb_refl.
  - apply orb_false_iff in Ha as [Hc Ha]. rewrite Hc, (IH Ha).
    reflexivity.
Qed.

Lemma property_in {A} (l : list (string * A)) (k : string) (v : A) :
  NoDup (map fst l) -> In (k, v) l -> property k l = Some v.
Proof.
  induction l as [|[k' v'] l IH]; intros Hnd Hin; [contradiction|].
  cbn [map fst] in Hnd. apply NoDup_cons in Hnd as [Hk' Hnd].
  cbn [property]. destruct Hin as [[= -> ->]|Hin].
  - now rewrite String.eqb_refl.
  - destruct (String.eqb_spec k' k) as [->|_]; [|now apply IH].
    exfalso. apply Hk'. apply list_elem_of_In.
    change k with (fst (k, v)). now apply in_map.
Qed.

(** X16: for a table whose repository names are distinct and hold no slash,
    every document URL leads back to the data of its own repository: the
    lookup by the first path segment never comes back empty-handed for a
    URL the table produced. *)
Theorem documentUrls_round_trip (toLowerCase : string -> string)
    (base : list (string * Readme)) :
  NoDup (map fst base) ->
  Forall (fun entry => occurs "/" (fst entry) = false) base ->
  map (getReadmeRepoData toLowerCase base) (documentUrls toLowerCase base)
  = map (fun entry => Some (snd (sdkEntry toLowerCase entry))) base
  /\ length (documentUrls toLowerCase base) = length base.
Proof.
  intros Hnd Hslash. split.
  - unfold documentUrls, SDKS. rewrite !map_map. apply map_ext_in.
    intros [repo data] Hin. unfold getReadmeRepoData. cbn [fst snd sdkEntry].
    match goal with
    | |- context [split _ (?a +:+ "/" +:+ ?r)] =>
        change (a +:+ "/" +:+ r) with (a +:+ String "/"%char r)
    end.
    rewrite split_head
      by (apply (proj1 (Forall_forall _ _) Hslash (repo, data));
          now apply list_elem_of_In).
    cbn [hd]. apply property_in.
    + unfold SDKS. rewrite map_map. cbn [fst sdkEntry]. exact Hnd.
    + unfold SDKS. apply (in_map (sdkEntry toLowerCase) _ _ Hin).
  - unfold documentUrls, SDKS. now rewrite !length_map.
Qed.

Lemma prefix_append (p s : string) : String.prefix p (p +:+ s) = true.
Proof.
  induction p as [|c p IH]; simpl; [now destruct s|].
  destruct (ascii_dec c c); [exact IH|contradiction].
Qed.

Lemma substring_whole (s : string) :
  String.substring 0 (String.length s) s = s.
Proof. induction s as [|d s IH]; simpl; [reflexivity|now rewrite IH]. Qed.

Lemma substringFrom_append (p s : string) :
  substringFrom (String.length p) (p +:+ s) = s.
Proof.
  unfold substringFrom. induction p as [|c p IH]; simpl.
  - rewrite Nat.sub_0_r. apply substring_whole.
  - exact IH.
Qed.

(** X17: the link replacer turns a link into the documentation site into a
    site-relative one, leaves absolute links and links to a section as they
    are, and points every other link into the repository at its branch, with
    one slash between branch and path whether or not the link began with
    one. *)
Theorem replacer_links (isURL : string -> bool) (repo_url repo_branch : string) :
  (forall path, replacer isURL repo_url repo_branch (docsUrl +:+ path) = path)
  /\ (forall url, startsWith docsUrl url = false ->
        isURL url = true \/ startsWith "#" url = true ->
        replacer isURL repo_url repo_branch url = url)
  /\ (forall path,
        startsWith docsUrl path = false -> isURL path = false ->
        isURL (String "/" path) = false ->
        startsWith "#" path = false -> startsWith "/" path = false ->
        replacer isURL repo_url repo_branch path
        = repo_url +:+ "/blob/" +:+ repo_branch +:+ "/" +:+ path
        /\ replacer isURL repo_url repo_branch (String "/" path)
           = replacer isURL repo_url repo_branch path).
Proof.
  split; [|split].
  - intros path. unfold replacer, startsWith.
    now rewrite prefix_append, substringFrom_append.
  - intros url Hd Hu. unfold replacer. rewrite Hd.
    destruct (isURL url); [reflexivity|].
    destruct Hu as [Hu|Hu]; [discriminate|now rewrite Hu].
  - intros path Hd Hu Hu' Hf Hs. unfold replacer.
    rewrite Hd, Hu, Hu', Hf, Hs.
    assert (E1 : startsWith docsUrl (String "/" path) = false) by reflexivity.
    assert (E2 : startsWith "#" (String "/" path) = false) by reflexivity.
    assert (E3 : startsWith "/" (String "/" path) = true)
      by (cbn; now destruct path).
    rewrite E1, E2, E3. split; reflexivity.
Qed.

End ReadmeProperties.

(* ================================================================== *)
(** * 7. Example runs                                                  *)
(* ================================================================== *)

Import Sample.

(** The validator of the unfiltered query at revisions 7 and 8. *)
Lemma calculateMeta_validator_witness :
  exists m1 m2,
    fst (calculateMeta (H := imports) (services 7) emptyQuery (@initial unit))
      = Returned m1
    /\ fst (calculateMeta (H := imports) (services 8) emptyQuery (@initial unit))
       = Returned m2
    /\ revisionId m1 = 7 /\ queryHash m1 = fingerprint emptyQuery
    /\ etag m1 = dquote +:+ fingerprint emptyQuery +:+ ":"
                 +:+ Number_toString 7 +:+ dquote
    /\ (etag m1 = etag m2 <->
        fingerprint emptyQuery = fingerprint emptyQuery /\ 7 = 8)
    /\ (emptyQuery = emptyQuery -> 7 <> 8 -> etag m1 <> etag m2).
Proof.
  exact (calculateMeta_validator (H := imports) (services 7) (services 8)
           emptyQuery emptyQuery 7 8 initial initial eq_refl eq_refl).
Defined.

(** A client that sends the current validator gets 304; the validator is in
    the ETag header. *)
Lemma getAll_gate_witness :
  let fresh := etagOf (fingerprint emptyQuery) 1 in
  let req := request OtherUser noFilters (Some fresh) in
  let s' := snd (getAll (H := imports) caching (services 1) req initial) in
  resolveQuery (H := imports) (services 1) req = Fulfilled emptyQuery
  /\ statusCode (res s') = 304
  /\ resHeaders (res s') !! "ETag" = Some fresh
  /\ trace s' = [EvGetMaxRevisionId].
Proof.
  intros fresh req s'.
  destruct (getAll_gate (H := imports) caching (services 1) req emptyQuery 1
              initial eq_refl eq_refl eq_refl) as (Hh & Hs & Hnm & _).
  split; [reflexivity|].
  split; [apply Hs; reflexivity|].
  split; [exact Hh|].
  apply Hnm. reflexivity.
Defined.

(** A filter given as the string "A" and as the list ["A"]. *)
Lemma prepQuery_scalar_or_list_witness :
  "A" <> EmptyString
  /\ prepQuery (H := imports)
       (mkRaw PUndefined (PString "A") PUndefined PUndefined (Some false))
     = prepQuery (H := imports)
         (mkRaw PUndefined (PArray ["A"]) PUndefined PUndefined (Some false))
  /\ prepQuery (H := imports)
       (mkRaw PUndefined (PArray ["A"]) PUndefined PUndefined (Some false))
     = Fulfilled (mkQuery None (Some ["A"]) None None (Some false)).
Proof.
  assert (N : "A" <> EmptyString) by discriminate.
  split; [exact N|].
  split; [|reflexivity].
  exact (proj1 (proj2 (prepQuery_scalar_or_list (H := imports)
                         (mkRaw PUndefined PUndefined PUndefined PUndefined
                                (Some false)) "A" N))).
Defined.

(** Two project filters that name the same projects in a different order
    normalise to different descriptors. *)
Lemma project_order_changes_descriptor :
  prepQuery (H := imports)
    (mkRaw PUndefined (PArray ["A"; "B"]) PUndefined PUndefined (Some false))
  = Fulfilled (mkQuery None (Some ["A"; "B"]) None None (Some false))
  /\ prepQuery (H := imports)
       (mkRaw PUndefined (PArray ["B"; "A"]) PUndefined PUndefined (Some false))
     = Fulfilled (mkQuery None (Some ["B"; "A"]) None None (Some false))
  /\ prepQuery (H := imports)
       (mkRaw PUndefined (PArray ["A"; "B"]) PUndefined PUndefined (Some false))
     <> prepQuery (H := imports)
          (mkRaw PUndefined (PArray ["B"; "A"]) PUndefined PUndefined
                 (Some false)).
Proof. repeat split; try reflexivity. discriminate. Qed.

(** A client that resolves segments itself and sends no filter. *)
Lemma prepQuery_no_filters_witness :
  resolveQuery (H := imports) (services 1) (request OtherUser noFilters None)
  = prepQuery (H := imports)
      (mkRaw PUndefined PUndefined PUndefined PUndefined (Some false))
  /\ prepQuery (H := imports)
       (mkRaw PUndefined PUndefined PUndefined PUndefined (Some false))
     = Fulfilled emptyQuery.
Proof.
  split; [reflexivity|].
  refine (proj1 (prepQuery_no_filters (H := imports)
                   (mkRaw PUndefined PUndefined PUndefined PUndefined
                          (Some false))
                   eq_refl eq_refl eq_refl eq_refl _)).
  discriminate.
Defined.

(** A client without the segments capability that sends no filter is not
    given the empty descriptor: its query carries the segment-inlining
    flag. *)
Lemma legacy_client_not_short_circuited :
  resolveQuery (H := imports) (services 1) (legacyRequest OtherUser noFilters)
  = Fulfilled (mkQuery None None None None (Some true))
  /\ resolveQuery (H := imports) (services 1)
       (legacyRequest OtherUser noFilters)
     <> Fulfilled emptyQuery.
Proof. split; [reflexivity|discriminate]. Qed.

(** An API user restricted to projects A and B in production: a client
    filter on project C and an environment of the client's choosing change
    nothing. *)
Lemma resolveQuery_override_witness :
  let u := ApiUser ["A"; "B"] "production" in
  let req1 := request u (mkRaw PUndefined (PArray ["C"]) PUndefined
                               (PString "development") None) None in
  let req2 := request u noFilters None in
  allProjects ["A"; "B"] = false /\ "production" <> "*"
  /\ resolveQuery (H := imports) (services 1) req1
     = resolveQuery (H := imports) (services 1) req2
  /\ resolveQuery (H := imports) (services 1) req1
     = Fulfilled (mkQuery None (Some ["A"; "B"]) None (Some "production")
                          (Some false)).
Proof.
  intros u req1 req2.
  assert (Ne : "production" <> "*") by discriminate.
  split; [reflexivity|]. split; [exact Ne|]. split; [|reflexivity].
  pose (mid := request u (mkRaw PUndefined PUndefined PUndefined
                                (PString "development") None) None).
  destruct (resolveQuery_override (H := imports) (services 1) req1 mid
              ["A"; "B"] "production" eq_refl eq_refl eq_refl eq_refl eq_refl)
    as [Hp _].
  destruct (resolveQuery_override (H := imports) (services 1) mid req2
              ["A"; "B"] "production" eq_refl eq_refl eq_refl eq_refl eq_refl)
    as [_ He].
  rewrite (proj1 (Hp eq_refl eq_refl)).
  exact (proj1 (He Ne eq_refl)).
Defined.

(** A client without the segments capability, acting for an API user that
    is restricted to projects A and B in production, asks for "alpha": the
    store is asked for those projects, that environment, inlined segments and
    the prefix "alpha"; it answers with "alpha" and "alphabet", and "alpha" is
    the feature sent. *)
Lemma getFeatureToggle_by_name_witness :
  let req := legacyRequest (ApiUser ["A"; "B"] "production") noFilters in
  let sent := mkQuery None (Some ["A"; "B"]) (Some "alpha")
                      (Some "production") (Some true) in
  let run := getFeatureToggle (H := imports) (SampleMore.prefixServices 1) req
                              initial in
  resolveQuery (H := imports) (SampleMore.prefixServices 1) req
  = Fulfilled (mkQuery None (Some ["A"; "B"]) None (Some "production")
                       (Some true))
  /\ SampleMore.prefixStore sent
     = Fulfilled [feature "alpha" true; feature "alphabet" false]
  /\ trace (snd run) = [EvGetClientFeatures sent]
  /\ fst run = Returned tt
  /\ statusCode (res (snd run)) = 200
  /\ body (res (snd run)) = Some (feature "alpha" true).
Proof.
  intros req sent run. split; [reflexivity|]. split; [reflexivity|].
  subst run.
  destruct (getFeatureToggle_by_name (H := imports)
              (SampleMore.prefixServices 1) req
              (mkQuery None (Some ["A"; "B"]) None (Some "production")
                       (Some true))
              [feature "alpha" true; feature "alphabet" false] initial
              eq_refl eq_refl) as [[Htr _] [Hfound _]].
  split; [exact Htr|].
  destruct Hfound as (t & Hin & Hn & Hf & Ho & Hs & Hb & _).
  - exists (feature "alpha" true). split; [now left|reflexivity].
  - split; [exact Ho|]. split; [exact Hs|].
    rewrite Hb. f_equal. cbn in Hf. now injection Hf as <-.
Defined.

(** Three calls for the unfiltered query at revision 1 before any answer. *)
Lemma concurrentCalls_deduplicated_witness :
  let calls := [(services 1, emptyQuery); (services 1, emptyQuery);
                (services 1, emptyQuery)] in
  exists s',
    concurrentCalls (H := imports) caching calls (@initial unit)
    = (Returned (repeat (mkPromise 0%nat (Fulfilled (toggles, ["seg"]))) 3), s')
    /\ featureReads (trace s') = 1%nat
    /\ segmentReads (trace s') = 1%nat.
Proof.
  intros calls.
  destruct (concurrentCalls_deduplicated (H := imports) (T := unit) caching 1
              (fingerprint emptyQuery) (services 1) emptyQuery
              [(services 1, emptyQuery); (services 1, emptyQuery)] initial)
    as (s' & Erun & Ef & Es & _).
  - reflexivity.
  - repeat constructor.
  - reflexivity.
  - exists s'. auto.
Defined.

(** Two calls for the unfiltered query, 100 ms apart, at one revision:
    the second shares the entry of the first. *)
Lemma cache_keyed_on_validator_witness :
  exists p1 p2 s',
    twoCalls (H := imports) (T := unit) caching (services 1) emptyQuery 100
             (services 1) emptyQuery initial = (Returned (p1, p2), s')
    /\ p2 = p1 /\ featureReads (trace s') = 1%nat.
Proof.
  destruct (cache_keyed_on_validator (H := imports) (T := unit)
              caching (services 1) (services 1)
              emptyQuery emptyQuery 1 1 100 (toggles, ["seg"]) initial)
    as (p1 & p2 & s' & Erun & Hp & Hf & _);
    [reflexivity|reflexivity|reflexivity|reflexivity|reflexivity|reflexivity
    |cbn; lia|].
  exists p1, p2, s'. split; [exact Erun|].
  split; [apply Hp|apply Hf]; split; reflexivity.
Defined.

(** The same two calls with the revision bumped from 1 to 2 in between: the
    fingerprint is the same, yet the second call finds no entry, creates a
    promise of its own and reads both stores again. *)
Lemma revision_bump_misses_cache :
  let run := twoCalls (H := imports) (T := unit) caching
               (services 1) emptyQuery 1
               (services 2) emptyQuery initial in
  hashSum (Imports := imports) emptyQuery = hashSum (Imports := imports) emptyQuery
  /\ fst run = Returned (mkPromise 0%nat (Fulfilled (toggles, ["seg"])),
                         mkPromise 1%nat (Fulfilled (toggles, ["seg"])))
  /\ featureReads (trace (snd run)) = 2%nat
  /\ segmentReads (trace (snd run)) = 2%nat
  /\ size (cache (snd run)) = 2%nat.
Proof. vm_compute. repeat split. Qed.

(** The feature store fails: the caller gets the error, and no entry
    stays behind. *)
Lemma resolution_all_or_nothing_witness :
  let key := etagOf (fingerprint emptyQuery) 1 in
  let run := (p <- featuresAndSegments (T := unit) caching (brokenServices 1)
                     emptyQuery key ;; awaitPromise p) in
  cache (@initial unit) !! key = None
  /\ fst (run initial) = Thrown (UpstreamError "features")
  /\ cache (snd (run initial)) !! key = None.
Proof.
  intros key run. split; [reflexivity|].
  destruct (resolution_all_or_nothing (T := unit) caching
              (brokenServices 1) emptyQuery key initial eq_refl)
    as (_ & _ & _ & _ & Hfail & _).
  exact (Hfail (UpstreamError "features") eq_refl).
Defined.

(** A tag filter of the form type:value is split into its two parts; one
    without a separator is rejected by validation. *)
Example tag_filter_split :
  prepQuery (H := imports)
    (mkRaw (PString "colour:red") PUndefined PUndefined PUndefined (Some false))
  = Fulfilled (mkQuery (Some [["colour"; "red"]]) None None None (Some false))
  /\ prepQuery (H := imports)
       (mkRaw (PString "badformat") PUndefined PUndefined PUndefined
              (Some false))
     = Rejected ValidationError.
Proof. split; reflexivity. Qed.

(** With caching disabled, three identical calls read each store three
    times. *)
Example disabled_cache_bypass :
  let run := concurrentCalls (H := imports) (T := unit) (mkCaching false 600)
               [(services 1, emptyQuery); (services 1, emptyQuery);
                (services 1, emptyQuery)] initial in
  featureReads (trace (snd run)) = 3%nat
  /\ segmentReads (trace (snd run)) = 3%nat
  /\ cache (snd run) = ∅.
Proof. vm_compute. repeat split. Qed.

(** A call made after the time-to-live has passed reads the stores again,
    although the revision is unchanged. *)
Example ttl_expiry :
  let run := twoCalls (H := imports) (T := unit) caching
               (services 1) emptyQuery 600
               (services 1) emptyQuery initial in
  featureReads (trace (snd run)) = 2%nat
  /\ segmentReads (trace (snd run)) = 2%nat.
Proof. vm_compute. repeat split. Qed.

(* ================================================================== *)
(** * 7a. Example runs for the further properties                      *)
(* ================================================================== *)

Import SampleMore.

(** The first poll of a client that resolves segments itself. *)
Lemma getAll_fresh_payload_witness :
  let fresh := etagOf (fingerprint emptyQuery) 1 in
  let req := request OtherUser noFilters None in
  let run := getAll (H := imports) caching (services 1) req initial in
  fst run = Returned tt
  /\ statusCode (res (snd run)) = 200
  /\ body (res (snd run))
     = Some (mkPayload 2 toggles emptyQuery (Some ["seg"])
                       (mkMeta 1 fresh (fingerprint emptyQuery)))
  /\ resHeaders (res (snd run)) !! "ETag" = Some fresh.
Proof.
  intros fresh req run.
  destruct (getAll_fresh_payload (H := imports) caching (services 1) req
              emptyQuery 1 toggles ["seg"] initial eq_refl eq_refl)
    as (Ho & Hr & _).
  - discriminate.
  - right. reflexivity.
  - reflexivity.
  - reflexivity.
  - split; [exact Ho|]. fold run in Hr. rewrite Hr.
    repeat split.
Defined.

(** A second client polls while the answer is cached and the feature store
    is down: it is served from the cache. *)
Lemma getAll_serves_cached_witness :
  let req := request OtherUser noFilters None in
  let run := getAll (H := imports) caching (brokenServices 1) req
                    afterFirstPoll in
  fst run = Returned tt
  /\ featureReads (trace (snd run)) = featureReads (trace afterFirstPoll)
  /\ option_map features (body (res (snd run))) = Some toggles.
Proof.
  intros req run.
  destruct (getAll_serves_cached (H := imports) caching (brokenServices 1) req
              emptyQuery 1
              (mkEntry (mkPromise 0%nat (Fulfilled (toggles, ["seg"]))) 600
                       (Some 0))
              (toggles, ["seg"]) afterFirstPoll eq_refl eq_refl)
    as (Ho & Hr & Ht & _).
  - discriminate.
  - reflexivity.
  - reflexivity.
  - reflexivity.
  - split; [exact Ho|]. fold run in Hr, Ht. rewrite Hr, Ht.
    split; [|reflexivity].
    rewrite featureReads_app. cbn. lia.
Defined.

(** The feature store is down at the first poll. *)
Lemma getAll_failure_not_cached_witness :
  let fresh := etagOf (fingerprint emptyQuery) 1 in
  let req := request OtherUser noFilters None in
  let run := getAll (H := imports) caching (brokenServices 1) req initial in
  fst run = Thrown (UpstreamError "features")
  /\ resHeaders (res (snd run)) !! "ETag" = Some fresh
  /\ finished (res (snd run)) = false
  /\ cache (snd run) !! fresh = None.
Proof.
  intros fresh req run.
  assert (Ok : cacheOk (@initial (@ClientFeaturesSchema bool string))).
  { intros k e L. cbn in L. rewrite lookup_empty in L. discriminate. }
  destruct (getAll_failure_not_cached (H := imports) caching (brokenServices 1)
              req emptyQuery 1 (UpstreamError "features") initial Ok
              eq_refl eq_refl eq_refl)
    as (Hr & Hc).
  - discriminate.
  - reflexivity.
  - fold run in Hr, Hc. rewrite Hr. split; [reflexivity|].
    split; [reflexivity|]. split; [reflexivity|exact Hc].
Defined.

(** A client polls, then polls again with the validator it was given: 304
    while the revision is 1. *)
Lemma etag_round_trip_witness :
  let first := getAll (H := imports) caching (services 1)
                      (request OtherUser noFilters None) initial in
  let sent := resHeaders (res (snd first)) !! "ETag" in
  sent = Some (etagOf (fingerprint emptyQuery) 1)
  /\ statusCode (res (snd (getAll (H := imports) caching (services 1)
                             (request OtherUser noFilters sent)
                             afterFirstPoll))) = 304.
Proof.
  intros first sent. split; [reflexivity|].
  apply (etag_round_trip (H := imports) caching (services 1) (services 1)
           (request OtherUser noFilters None)
           (request OtherUser noFilters sent)
           emptyQuery emptyQuery 1 1 initial afterFirstPoll);
    try reflexivity.
  split; reflexivity.
Defined.

(** An API user for all projects and all environments: the client's project
    and environment are in force. *)
Lemma resolveQuery_client_filters_witness :
  let req := request (ApiUser ["*"] "*")
               (mkRaw PUndefined (PArray ["C"]) PUndefined
                      (PString "development") None) None in
  exists d,
    resolveQuery (H := imports) (services 1) req = Fulfilled d
    /\ project d = Some ["C"] /\ environment d = Some "development".
Proof.
  intros req.
  pose (d := mkQuery None (Some ["C"]) None (Some "development") (Some false)).
  destruct (resolveQuery_client_filters (H := imports) (services 1) req d
              eq_refl) as [Hp He].
  exists d. split; [reflexivity|]. split.
  - assert (U : user req = OtherUser
                \/ exists ps env, user req = ApiUser ps env
                                  /\ allProjects ps = true)
      by (right; exists ["*"], "*"; split; reflexivity).
    exact (proj1 (Hp U) ["C"] eq_refl).
  - assert (U : user req = OtherUser \/ exists ps, user req = ApiUser ps "*")
      by (right; exists ["*"]; reflexivity).
    refine (He U "development" _ eq_refl). discriminate.
Defined.

(** Two tag filters, one of them with two colons. *)
Lemma prepQuery_tag_round_trip_witness :
  exists pieces,
    prepQuery (H := imports)
      (mkRaw (PArray ["colour:red"; "a:b:c"]) PUndefined PUndefined PUndefined
             (Some false))
    = Fulfilled (mkQuery (Some pieces) None None None (Some false))
    /\ pieces = [["colour"; "red"]; ["a"; "b"; "c"]]
    /\ map (String.concat ":") pieces = ["colour:red"; "a:b:c"].
Proof.
  destruct (prepQuery_tag_round_trip (H := imports)
              (mkRaw (PArray ["colour:red"; "a:b:c"]) PUndefined PUndefined
                     PUndefined (Some false))
              (mkQuery (Some [["colour"; "red"]; ["a"; "b"; "c"]]) None None
                       None (Some false))
              ["colour:red"; "a:b:c"] eq_refl eq_refl)
    as (pieces & Ht & Hj & _).
  exists pieces. cbn [tag] in Ht. injection Ht as <-.
  repeat split.
Defined.

(** Three calls with caching disabled. *)
Lemma disabled_cache_reads_every_time_witness :
  exists ps s',
    concurrentCalls (H := imports) (T := unit) (mkCaching false 600)
      [(services 1, emptyQuery); (services 1, emptyQuery);
       (services 1, emptyQuery)] initial = (Returned ps, s')
    /\ map pid ps = [0; 1; 2]%nat
    /\ featureReads (trace s') = 3%nat
    /\ cache s' = ∅.
Proof.
  destruct (disabled_cache_reads_every_time (H := imports) (T := unit)
              (mkCaching false 600)
              [(services 1, emptyQuery); (services 1, emptyQuery);
               (services 1, emptyQuery)] initial eq_refl)
    as (ps & s' & Erun & Hp & _ & Hf & _ & Hc & _).
  - repeat constructor; exists 1; reflexivity.
  - exists ps, s'. auto.
Defined.

(** Two calls 600 ms apart with a time-to-live of 600 ms. *)
Lemma ttl_expiry_reads_again_witness :
  exists p1 p2 s',
    twoCalls (H := imports) (T := unit) caching (services 1) emptyQuery 600
             (services 1) emptyQuery initial = (Returned (p1, p2), s')
    /\ pid p2 <> pid p1
    /\ featureReads (trace s') = 2%nat.
Proof.
  destruct (ttl_expiry_reads_again (H := imports) (T := unit) caching
              (services 1) (services 1) emptyQuery emptyQuery 1 600
              (toggles, ["seg"]) initial eq_refl)
    as (p1 & p2 & s' & Erun & Hp & _ & Hf & _);
    [cbn; lia|reflexivity|reflexivity|reflexivity|reflexivity|reflexivity|].
  exists p1, p2, s'. auto.
Defined.

(** The feature store is down when a single feature is asked for. *)
Lemma getFeatureToggle_failure_witness :
  let run := getFeatureToggle (H := imports) (brokenServices 1)
               (request OtherUser noFilters None) initial in
  fst run = Thrown (UpstreamError "features")
  /\ res (snd run) = freshResponse.
Proof.
  intros run.
  destruct (getFeatureToggle_failure (H := imports) (brokenServices 1)
              (request OtherUser noFilters None) (UpstreamError "features")
              initial eq_refl) as (Hr & _).
  split; [reflexivity|exact Hr].
Defined.

(** The table of the site: three repositories, three document URLs. *)
Lemma documentUrls_round_trip_witness :
  Readmes.documentUrls SampleMore.lower Readmes.SDKS_base
  = ["unleash-client-go/v3/README.md"; "unleash-client-java/main/README.md";
     "unleash-client-rust/main/README.md"]
  /\ map (Readmes.getReadmeRepoData SampleMore.lower Readmes.SDKS_base)
         (Readmes.documentUrls SampleMore.lower Readmes.SDKS_base)
     = [Some (Readmes.mkReadmeData "Go"
                "https://github.com/Unleash/unleash-client-go" "go" "v3");
        Some (Readmes.mkReadmeData "Java"
                "https://github.com/Unleash/unleash-client-java" "java" "main");
        Some (Readmes.mkReadmeData "Rust"
                "https://github.com/Unleash/unleash-client-rust" "rust" "main")].
Proof.
  split; [reflexivity|].
  refine (eq_trans (proj1 (documentUrls_round_trip SampleMore.lower
                             Readmes.SDKS_base _ _)) eq_refl).
  - repeat constructor; rewrite list_elem_of_In; cbn; intuition discriminate.
  - repeat constructor.
Defined.
